(** * AI agent platform: agents, chat sessions, messages, voice pipeline

    A shallow embedding of the request handlers of the FastAPI backend
    ([app/routers/agents.py], [app/routers/sessions.py],
    [app/routers/messages.py]) over the three tables of [app/models.py].

    The handlers are [async] functions that read and write the database
    through a SQLAlchemy session, call the OpenAI client and raise
    exceptions.  They are embedded as computations in a state-and-exception
    monad over [World]: the three tables, the directory of generated audio
    files and a log of the calls made to the OpenAI client.  A raised
    exception keeps the state reached so far, because every write of the
    handlers is committed on its own ([db.add] followed by [db.commit]).

    Values the handlers draw from outside (column defaults [uuid4()] and
    [_utcnow()], the OpenAI answers, the order in which the database engine
    returns rows with equal sort keys) are explicit arguments. *)

From Stdlib Require Import List String Ascii Bool Arith NArith Lia.
From Stdlib Require Import Permutation Sorted DecimalString.
Import ListNotations.
Local Open Scope list_scope.
Local Open Scope string_scope.

Set Implicit Arguments.

(** ** Data model ([app/models.py]) *)

(** [DateTime] columns: microseconds since the epoch, in UTC. *)
Definition datetime := N.

Module Agent.
Record t := make {
  id : string;
  name : string;
  prompt : string;
  created_at : datetime;
  updated_at : datetime
}.
End Agent.

Module ChatSession.
Record t := make {
  id : string;
  agent_id : string;
  title : option string;
  created_at : datetime
}.
End ChatSession.

Module Message.
Record t := make {
  id : string;
  session_id : string;
  role : string;
  content : string;
  audio_url : option string;
  created_at : datetime
}.

(** [message.audio_url = u] on a loaded row. *)
Definition with_audio_url (u : option string) (m : t) : t :=
  make (id m) (session_id m) (role m) (content m) u (created_at m).
End Message.

(** One entry of the list sent to the chat completion API:
    [{"role": ..., "content": ...}]. *)
Record ChatEntry := chat_entry { entry_role : string; entry_content : string }.

(** The two values a new row takes from its column defaults:
    [default=lambda: str(uuid4())] and [default=_utcnow]. *)
Record Defaults := defaults { new_id : string; now : datetime }.

(** ** The OpenAI client ([app/services/]) *)

Inductive Capability := Chat | Transcription | Speech.

(** The answers of the remote provider during one request; [None] is a
    failed call (the client raises). *)
Record OpenAI := {
  chat_completions_create : list ChatEntry -> option string;
  audio_transcriptions_create : option string -> string -> option string;
  audio_speech_create : string -> option string
}.

(** A call made to the client, with what it answered. *)
Inductive GatewayCall :=
| ChatCall (messages : list ChatEntry) (answer : option string)
| TranscriptionCall (filename : option string) (audio : string)
                    (answer : option string)
| SpeechCall (text : string) (answer : option string).

(** ** The state the handlers act on *)

Record World := mkWorld {
  agents : list Agent.t;
  sessions : list ChatSession.t;
  messages : list Message.t;
  audio_files : list (string * string);
  calls : list GatewayCall
}.

(** The state after [init_db] and before any request. *)
Definition empty_world : World := mkWorld [] [] [] [] [].

Definition set_agents (l : list Agent.t) (w : World) : World :=
  mkWorld l (sessions w) (messages w) (audio_files w) (calls w).
Definition set_sessions (l : list ChatSession.t) (w : World) : World :=
  mkWorld (agents w) l (messages w) (audio_files w) (calls w).
Definition set_messages (l : list Message.t) (w : World) : World :=
  mkWorld (agents w) (sessions w) l (audio_files w) (calls w).
Definition set_audio_files (l : list (string * string)) (w : World) : World :=
  mkWorld (agents w) (sessions w) (messages w) l (calls w).
Definition set_calls (l : list GatewayCall) (w : World) : World :=
  mkWorld (agents w) (sessions w) (messages w) (audio_files w) l.

(** ** Exceptions and the handler monad *)

Inductive Exn :=
| HTTPException (status_code : nat) (detail : string)
| UpstreamError (c : Capability)
| IntegrityError
| MultipleResultsFound.

Inductive Outcome (A : Type) :=
| Ok (a : A)
| Raise (e : Exn).
Arguments Ok {A} a.
Arguments Raise {A} e.

Definition M (A : Type) := World -> Outcome A * World.

Definition ret {A} (a : A) : M A := fun w => (Ok a, w).

Definition bind {A B} (c : M A) (k : A -> M B) : M B :=
  fun w => match c w with
           | (Ok a, w') => k a w'
           | (Raise e, w') => (Raise e, w')
           end.

Definition raise {A} (e : Exn) : M A := fun w => (Raise e, w).

Definition gets {A} (f : World -> A) : M A := fun w => (Ok (f w), w).

Definition modify (f : World -> World) : M unit := fun w => (Ok tt, f w).

Declare Scope handler_scope.
Delimit Scope handler_scope with handler.
Notation "x <- c ;; k" := (bind c (fun x => k))
  (at level 61, c at next level, right associativity) : handler_scope.
Notation "c ;;; k" := (bind c (fun _ => k))
  (at level 61, right associativity) : handler_scope.
Local Open Scope handler_scope.

(** The 404 responses of the routers, with the detail strings of the
    source. *)
Definition HTTP_404_NOT_FOUND : nat := 404.

Definition NotFound_agent (agent_id : string) : Exn :=
  HTTPException HTTP_404_NOT_FOUND
    ("Agent with id " ++ agent_id ++ " not found").

Definition NotFound_session (session_id agent_id : string) : Exn :=
  HTTPException HTTP_404_NOT_FOUND
    ("Session with id " ++ session_id ++ " not found for agent " ++ agent_id).

(** ** The persistence layer *)

(** [result.scalar_one_or_none()]. *)
Definition scalar_one_or_none {A} (rows : list A) : M (option A) :=
  match rows with
  | [] => ret None
  | [x] => ret (Some x)
  | _ => raise MultipleResultsFound
  end.

(** [db.add(row); await db.commit(); await db.refresh(row)]: the insert
    fails on the primary key when the id is taken. *)
Definition add_agent (a : Agent.t) : M Agent.t :=
  fun w =>
    if existsb (fun x => Agent.id x =? Agent.id a) (agents w)
    then (Raise IntegrityError, w)
    else (Ok a, set_agents (agents w ++ [a]) w).

Definition add_session (s : ChatSession.t) : M ChatSession.t :=
  fun w =>
    if existsb (fun x => ChatSession.id x =? ChatSession.id s) (sessions w)
    then (Raise IntegrityError, w)
    else (Ok s, set_sessions (sessions w ++ [s]) w).

Definition add_message (m : Message.t) : M Message.t :=
  fun w =>
    if existsb (fun x => Message.id x =? Message.id m) (messages w)
    then (Raise IntegrityError, w)
    else (Ok m, set_messages (messages w ++ [m]) w).

Definition created_at_le (a b : Message.t) : Prop :=
  (Message.created_at a <= Message.created_at b)%N.

(** The database engine behind [.order_by(Message.created_at.asc())]. *)
Record Engine := {
  order_by_created_at_asc : list Message.t -> list Message.t
}.

(** What the query asks of the engine: the selected rows, each once, in
    non-decreasing [created_at].  It names no second key, so the order of
    rows with equal [created_at] is the engine's. *)
Definition lawful (E : Engine) : Prop :=
  (forall l, Permutation l (order_by_created_at_asc E l))
  /\ (forall l, StronglySorted created_at_le (order_by_created_at_asc E l)).

(** [select(Message).where(Message.session_id == session_id)
      .order_by(Message.created_at.asc())] *)
Definition select_messages (E : Engine) (session_id : string) : M (list Message.t) :=
  gets (fun w =>
    order_by_created_at_asc E
      (filter (fun m => Message.session_id m =? session_id) (messages w))).

(** ** [app/services/]: one call to the provider each *)

Definition log_call (c : GatewayCall) : M unit :=
  modify (fun w => set_calls (calls w ++ [c]) w).

(** [openai_chat.generate_chat_response(messages)] *)
Definition generate_chat_response (ai : OpenAI) (msgs : list ChatEntry) : M string :=
  let response := chat_completions_create ai msgs in
  log_call (ChatCall msgs response) ;;;
  match response with
  | Some text => ret text
  | None => raise (UpstreamError Chat)
  end.

(** [openai_stt.transcribe_audio(tmp.name)]: the temporary file holds the
    uploaded bytes and takes its suffix from the uploaded file's name, so
    the answer is a function of that name and the bytes. *)
Definition transcribe_audio (ai : OpenAI) (filename : option string)
    (audio_bytes : string) : M string :=
  let response := audio_transcriptions_create ai filename audio_bytes in
  log_call (TranscriptionCall filename audio_bytes response) ;;;
  match response with
  | Some text => ret text
  | None => raise (UpstreamError Transcription)
  end.

(** [openai_tts.generate_speech(text, output_path)]: the file is written
    after the provider has answered.  The caller drops the returned file
    name. *)
Definition generate_speech (ai : OpenAI) (text output_path : string) : M unit :=
  let response := audio_speech_create ai text in
  log_call (SpeechCall text response) ;;;
  match response with
  | Some audio_data =>
      modify (fun w => set_audio_files ((output_path, audio_data) :: audio_files w) w)
  | None => raise (UpstreamError Speech)
  end.

(** ** [app/routers/agents.py] *)

Record AgentCreate := { create_name : string; create_prompt : string }.

(** [AgentUpdate]: both fields are [Optional[str] = None].  A field is
    unset ([None] here), or set to [null] ([Some None]) or to a string. *)
Record AgentUpdate := {
  update_name : option (option string);
  update_prompt : option (option string)
}.

Definition select_agent (agent_id : string) : M (list Agent.t) :=
  gets (fun w => filter (fun a => Agent.id a =? agent_id) (agents w)).

Definition create_agent (payload : AgentCreate) (d : Defaults)
    (updated : datetime) : M Agent.t :=
  add_agent (Agent.make (new_id d) (create_name payload) (create_prompt payload)
                        (now d) updated).

Definition get_agent (agent_id : string) : M Agent.t :=
  rows <- select_agent agent_id ;;
  agent <- scalar_one_or_none rows ;;
  match agent with
  | None => raise (NotFound_agent agent_id)
  | Some agent => ret agent
  end.

(** The pending value of a [nullable=False] text column after [setattr]:
    unset keeps the loaded value. *)
Definition setattr_text (old : string) (v : option (option string)) : option string :=
  match v with
  | None => Some old
  | Some value => value
  end.

(** [await db.commit()] after the [setattr] loop: a [NULL] in [name] or
    [prompt] violates the column constraint; an [UPDATE] is emitted, and
    [onupdate=_utcnow] fires, only when a column has a new value. *)
Definition commit_agent (agent : Agent.t) (name prompt : option string)
    (t : datetime) : M Agent.t :=
  match name, prompt with
  | Some n, Some p =>
      let touched := negb ((n =? Agent.name agent) && (p =? Agent.prompt agent)) in
      let agent' :=
        Agent.make (Agent.id agent) n p (Agent.created_at agent)
                   (if touched then t else Agent.updated_at agent) in
      modify (fun w =>
        set_agents (map (fun a => if Agent.id a =? Agent.id agent then agent' else a)
                        (agents w)) w) ;;;
      ret agent'
  | _, _ => raise IntegrityError
  end.

Definition update_agent (agent_id : string) (payload : AgentUpdate)
    (t : datetime) : M Agent.t :=
  rows <- select_agent agent_id ;;
  agent <- scalar_one_or_none rows ;;
  match agent with
  | None => raise (NotFound_agent agent_id)
  | Some agent =>
      commit_agent agent
        (setattr_text (Agent.name agent) (update_name payload))
        (setattr_text (Agent.prompt agent) (update_prompt payload)) t
  end.

(** [await db.delete(agent)] with [cascade="all, delete-orphan"] on
    [Agent.sessions] and on [ChatSession.messages]. *)
Definition owned_by (agent_id : string) (s : ChatSession.t) : bool :=
  ChatSession.agent_id s =? agent_id.

Definition in_sessions (l : list ChatSession.t) (m : Message.t) : bool :=
  existsb (fun s => Message.session_id m =? ChatSession.id s) l.

Definition delete_agent_cascade (agent : Agent.t) (w : World) : World :=
  let doomed := filter (owned_by (Agent.id agent)) (sessions w) in
  mkWorld
    (filter (fun a => negb (Agent.id a =? Agent.id agent)) (agents w))
    (filter (fun s => negb (owned_by (Agent.id agent) s)) (sessions w))
    (filter (fun m => negb (in_sessions doomed m)) (messages w))
    (audio_files w) (calls w).

Definition delete_agent (agent_id : string) : M unit :=
  rows <- select_agent agent_id ;;
  agent <- scalar_one_or_none rows ;;
  match agent with
  | None => raise (NotFound_agent agent_id)
  | Some agent => modify (delete_agent_cascade agent)
  end.

(** ** [app/routers/sessions.py] *)

(** [SessionCreate]: [title: Optional[str] = None]. *)
Definition SessionCreate := option string.

(** [str(n)] on a non-negative integer. *)
Definition str_nat (n : nat) : string := NilEmpty.string_of_uint (Nat.to_uint n).
Definition str_N (n : N) : string := NilEmpty.string_of_uint (N.to_uint n).

(** Time of day of a UTC [datetime]. *)
Definition hour (t : datetime) : N := ((t / 3600000000) mod 24)%N.
Definition minute (t : datetime) : N := ((t / 60000000) mod 60)%N.
Definition second (t : datetime) : N := ((t / 1000000) mod 60)%N.

(** Zero-padded two-digit fields of [strftime]. *)
Definition pad2 (n : N) : string :=
  if (n <? 10)%N then "0" ++ str_N n else str_N n.

(** [%I]: hour on the 12-hour clock, 01 to 12. *)
Definition hour12 (t : datetime) : N :=
  let h := (hour t mod 12)%N in if (h =? 0)%N then 12%N else h.

(** [%p] in the C locale. *)
Definition am_pm (t : datetime) : string :=
  if (hour t <? 12)%N then "AM" else "PM".

(** [now.strftime("%I:%M:%S %p")] *)
Definition strftime_I_M_S_p (t : datetime) : string :=
  pad2 (hour12 t) ++ ":" ++ pad2 (minute t) ++ ":" ++ pad2 (second t)
    ++ " " ++ am_pm t.

(** [s.lstrip(c)] for a single character [c]. *)
Fixpoint lstrip (c : ascii) (s : string) : string :=
  match s with
  | EmptyString => EmptyString
  | String a s' => if Ascii.eqb a c then lstrip c s' else s
  end.

(** [not title] on an [Optional[str]]. *)
Definition falsy (title : option string) : bool :=
  match title with
  | None => true
  | Some s => s =? ""
  end.

(** [select(func.count()).select_from(ChatSession)
      .where(ChatSession.agent_id == agent_id)] *)
Definition count_sessions (agent_id : string) : M nat :=
  gets (fun w => List.length (filter (owned_by agent_id) (sessions w))).

Definition default_title (n : nat) (t : datetime) : string :=
  let time_str := lstrip "0"%char (strftime_I_M_S_p t) in
  "Chat " ++ str_nat n ++ " (" ++ time_str ++ ")".

(** [t] is the clock read for the title, [d] the column defaults of the
    new row. *)
Definition create_session (agent_id : string) (payload : SessionCreate)
    (t : datetime) (d : Defaults) : M ChatSession.t :=
  _ <- get_agent agent_id ;;
  title <- (if falsy payload
            then count <- count_sessions agent_id ;;
                 ret (Some (default_title (count + 1) t))
            else ret payload) ;;
  add_session (ChatSession.make (new_id d) agent_id title (now d)).

Definition select_session (session_id agent_id : string) : M (list ChatSession.t) :=
  gets (fun w =>
    filter (fun s => (ChatSession.id s =? session_id) && owned_by agent_id s)
           (sessions w)).

Definition _get_session_or_404 (session_id agent_id : string) : M ChatSession.t :=
  rows <- select_session session_id agent_id ;;
  session <- scalar_one_or_none rows ;;
  match session with
  | None => raise (NotFound_session session_id agent_id)
  | Some session => ret session
  end.

Definition get_session (agent_id session_id : string) : M ChatSession.t :=
  _ <- get_agent agent_id ;;
  _get_session_or_404 session_id agent_id.

(** [await db.delete(session)] with the cascade on
    [ChatSession.messages]. *)
Definition delete_session (agent_id session_id : string) : M unit :=
  session <- _get_session_or_404 session_id agent_id ;;
  modify (fun w =>
    mkWorld (agents w)
      (filter (fun s => negb (ChatSession.id s =? ChatSession.id session)) (sessions w))
      (filter (fun m => negb (Message.session_id m =? ChatSession.id session)) (messages w))
      (audio_files w) (calls w)).

(** ** [app/routers/messages.py] *)

Definition _get_agent_or_404 : string -> M Agent.t := get_agent.

Definition to_entry (msg : Message.t) : ChatEntry :=
  chat_entry (Message.role msg) (Message.content msg).

Definition _build_conversation_history (E : Engine) (session_id : string)
    : M (list ChatEntry) :=
  msgs <- select_messages E session_id ;;
  ret (map to_entry msgs).

Definition MessagePairResponse := (Message.t * Message.t)%type.

Definition send_message (ai : OpenAI) (E : Engine) (agent_id session_id : string)
    (payload : string) (d_user d_assistant : Defaults) : M MessagePairResponse :=
  agent <- _get_agent_or_404 agent_id ;;
  _ <- _get_session_or_404 session_id agent_id ;;
  user_message <-
    add_message (Message.make (new_id d_user) session_id "user" payload None (now d_user)) ;;
  conversation <- _build_conversation_history E session_id ;;
  let full_messages := chat_entry "system" (Agent.prompt agent) :: conversation in
  assistant_text <- generate_chat_response ai full_messages ;;
  assistant_message <-
    add_message (Message.make (new_id d_assistant) session_id "assistant"
                              assistant_text None (now d_assistant)) ;;
  ret (user_message, assistant_message).

Definition list_messages (E : Engine) (agent_id session_id : string)
    : M (list Message.t) :=
  _ <- _get_agent_or_404 agent_id ;;
  _ <- _get_session_or_404 session_id agent_id ;;
  select_messages E session_id.

(** [assistant_message.audio_url = audio_url; await db.commit();
    await db.refresh(assistant_message)]: an [UPDATE] by primary key. *)
Definition set_audio_url (msg : Message.t) (audio_url : string) : M Message.t :=
  let msg' := Message.with_audio_url (Some audio_url) msg in
  modify (fun w =>
    set_messages (map (fun m => if Message.id m =? Message.id msg then msg' else m)
                      (messages w)) w) ;;;
  ret msg'.

(** [filename] and [audio_bytes] are the uploaded file, [hex] is
    [uuid.uuid4().hex]. *)
Definition voice_interaction (ai : OpenAI) (E : Engine) (agent_id session_id : string)
    (filename : option string) (audio_bytes : string)
    (d_user d_assistant : Defaults) (hex : string) : M MessagePairResponse :=
  agent <- _get_agent_or_404 agent_id ;;
  _ <- _get_session_or_404 session_id agent_id ;;
  transcription_text <- transcribe_audio ai filename audio_bytes ;;
  user_message <-
    add_message (Message.make (new_id d_user) session_id "user" transcription_text
                              None (now d_user)) ;;
  conversation <- _build_conversation_history E session_id ;;
  let full_messages := chat_entry "system" (Agent.prompt agent) :: conversation in
  assistant_text <- generate_chat_response ai full_messages ;;
  assistant_message <-
    add_message (Message.make (new_id d_assistant) session_id "assistant"
                              assistant_text None (now d_assistant)) ;;
  let audio_filename := hex ++ ".mp3" in
  let audio_path := "audio_files/" ++ audio_filename in
  generate_speech ai assistant_text audio_path ;;;
  let audio_url := "/api/audio/" ++ audio_filename in
  assistant_message <- set_audio_url assistant_message audio_url ;;
  ret (user_message, assistant_message).

(** ** The database engine

    [DATABASE_URL] in [app/config.py] and [TEST_DATABASE_URL] in
    [tests/conftest.py] both name SQLite.  [messages] has no index on
    [created_at], so for [ORDER BY created_at ASC] SQLite sorts the rows of
    its scan of the table, and rows with equal keys leave the sorter in the
    order they entered it, which is the order of their insertion.
    [stable_engine] is that sort, written as an insertion sort: a row goes
    before the first row that is not older than it. *)

Fixpoint insert_row (before : Message.t -> Message.t -> bool) (x : Message.t)
    (l : list Message.t) : list Message.t :=
  match l with
  | [] => [x]
  | y :: l' => if before x y then x :: y :: l' else y :: insert_row before x l'
  end.

Definition sort_rows (before : Message.t -> Message.t -> bool) (l : list Message.t)
    : list Message.t :=
  fold_right (insert_row before) [] l.

Definition leb_created_at (x y : Message.t) : bool :=
  (Message.created_at x <=? Message.created_at y)%N.

(** Rows with equal [created_at] stay in table order. *)
Definition stable_engine : Engine :=
  {| order_by_created_at_asc := sort_rows leb_created_at |}.

(** ** The message handlers after their lookups *)

(** The rows of a session, in table order. *)
Definition session_rows (session_id : string) (l : list Message.t) : list Message.t :=
  filter (fun m => Message.session_id m =? session_id) l.

(** The list [send_message] and [voice_interaction] hand to the chat
    completion call when the table holds [l]. *)
Definition full_messages_of (E : Engine) (agent : Agent.t) (session_id : string)
    (l : list Message.t) : list ChatEntry :=
  chat_entry "system" (Agent.prompt agent)
    :: map to_entry (order_by_created_at_asc E (session_rows session_id l)).

(** [send_message] after both lookups have succeeded. *)
Definition send_message_body (ai : OpenAI) (E : Engine) (agent : Agent.t)
    (session_id payload : string) (d_user d_assistant : Defaults) : M MessagePairResponse :=
  user_message <-
    add_message (Message.make (new_id d_user) session_id "user" payload None (now d_user)) ;;
  conversation <- _build_conversation_history E session_id ;;
  let full_messages := chat_entry "system" (Agent.prompt agent) :: conversation in
  assistant_text <- generate_chat_response ai full_messages ;;
  assistant_message <-
    add_message (Message.make (new_id d_assistant) session_id "assistant"
                              assistant_text None (now d_assistant)) ;;
  ret (user_message, assistant_message).

(** The two lookups every message handler starts with. *)
Definition resolved (agent_id session_id : string) (w : World) : Outcome Agent.t :=
  match get_agent agent_id w with
  | (Ok agent, _) =>
      match _get_session_or_404 session_id agent_id w with
      | (Ok _, _) => Ok agent
      | (Raise e, _) => Raise e
      end
  | (Raise e, _) => Raise e
  end.

(** [voice_interaction] after both lookups have succeeded. *)
Definition voice_interaction_body (ai : OpenAI) (E : Engine) (agent : Agent.t)
    (session_id : string) (filename : option string) (audio_bytes : string)
    (d_user d_assistant : Defaults) (hex : string) : M MessagePairResponse :=
  transcription_text <- transcribe_audio ai filename audio_bytes ;;
  user_message <-
    add_message (Message.make (new_id d_user) session_id "user" transcription_text
                              None (now d_user)) ;;
  conversation <- _build_conversation_history E session_id ;;
  let full_messages := chat_entry "system" (Agent.prompt agent) :: conversation in
  assistant_text <- generate_chat_response ai full_messages ;;
  assistant_message <-
    add_message (Message.make (new_id d_assistant) session_id "assistant"
                              assistant_text None (now d_assistant)) ;;
  let audio_filename := hex ++ ".mp3" in
  let audio_path := "audio_files/" ++ audio_filename in
  generate_speech ai assistant_text audio_path ;;;
  let audio_url := "/api/audio/" ++ audio_filename in
  assistant_message <- set_audio_url assistant_message audio_url ;;
  ret (user_message, assistant_message).

(** The history the handlers read back for a session whose table holds
    [l]. *)
Definition history_of (E : Engine) (session_id : string) (l : list Message.t)
    : list Message.t :=
  order_by_created_at_asc E (session_rows session_id l).

(** The rows created at [t]. *)
Definition at_time (t : datetime) (m : Message.t) : bool :=
  (Message.created_at m =? t)%N.

(** [l] is [rows] in creation order: the same rows, each as often, in
    non-decreasing [created_at], and those created at the same time in the
    order [rows] has them. *)
Definition in_creation_order (rows l : list Message.t) : Prop :=
  Permutation rows l /\
  StronglySorted created_at_le l /\
  forall t, filter (at_time t) l = filter (at_time t) rows.

(** ** Reachable states *)

(** One request, served to the end or to the exception it raises. *)
Inductive step (w : World) : World -> Prop :=
| step_create_agent payload d updated :
    step w (snd (create_agent payload d updated w))
| step_get_agent agent_id :
    step w (snd (get_agent agent_id w))
| step_update_agent agent_id payload t :
    step w (snd (update_agent agent_id payload t w))
| step_delete_agent agent_id :
    step w (snd (delete_agent agent_id w))
| step_create_session agent_id payload t d :
    step w (snd (create_session agent_id payload t d w))
| step_get_session agent_id session_id :
    step w (snd (get_session agent_id session_id w))
| step_delete_session agent_id session_id :
    step w (snd (delete_session agent_id session_id w))
| step_send_message ai E agent_id session_id text du da :
    lawful E ->
    step w (snd (send_message ai E agent_id session_id text du da w))
| step_list_messages E agent_id session_id :
    lawful E ->
    step w (snd (list_messages E agent_id session_id w))
| step_voice_interaction ai E agent_id session_id filename audio du da hex :
    lawful E ->
    step w (snd (voice_interaction ai E agent_id session_id filename audio du da hex w)).

Inductive reachable : World -> Prop :=
| reachable_init : reachable empty_world
| reachable_step w w' : reachable w -> step w w' -> reachable w'.

(** Primary keys are unique in each table. *)
Definition wf (w : World) : Prop :=
  NoDup (map Agent.id (agents w)) /\
  NoDup (map ChatSession.id (sessions w)) /\
  NoDup (map Message.id (messages w)).

(** ** The audio reference *)

(** A row with an audio reference is an assistant row whose text the
    speech synthesis has answered, and the reference names the file that
    answer was written to. *)
Definition audio_ok (log : list GatewayCall) (files : list (string * string))
    (m : Message.t) : Prop :=
  forall u, Message.audio_url m = Some u ->
    Message.role m = "assistant" /\
    exists hex audio_data,
      u = "/api/audio/" ++ hex ++ ".mp3" /\
      In (SpeechCall (Message.content m) (Some audio_data)) log /\
      In ("audio_files/" ++ hex ++ ".mp3", audio_data) files.

Definition audio_inv (w : World) : Prop :=
  Forall (audio_ok (calls w) (audio_files w)) (messages w).

(** ** Notions used in the statements *)

Definition created_at_lt (a b : Message.t) : Prop :=
  (Message.created_at a < Message.created_at b)%N.

Definition has_agent (agent_id : string) (w : World) : bool :=
  existsb (fun a => Agent.id a =? agent_id) (agents w).

(** No row of the session table has this id under this agent: the id is
    unknown, or it is the id of a session of another agent. *)
Definition not_a_session_of (agent_id session_id : string) (w : World) : Prop :=
  forall s, In s (sessions w) -> ChatSession.id s = session_id ->
            ChatSession.agent_id s <> agent_id.

(** The number of sessions the agent has. *)
Definition count_of (agent_id : string) (w : World) : nat :=
  List.length (filter (owned_by agent_id) (sessions w)).

(** A field of the request body that is present with [null]. *)
Definition sets_null (payload : AgentUpdate) : bool :=
  match update_name payload, update_prompt payload with
  | Some None, _ => true
  | _, Some None => true
  | _, _ => false
  end.

(** The value a column has after the update: the string of the request
    when the field is present, the stored one when it is absent. *)
Definition requested (old : string) (v : option (option string)) : string :=
  match v with
  | Some (Some value) => value
  | _ => old
  end.

(** ** Listings ([list_agents], [list_sessions])

    Both queries end in [.order_by(<table>.created_at.desc())]. *)

Record ListEngine := {
  order_agents_desc : list Agent.t -> list Agent.t;
  order_sessions_desc : list ChatSession.t -> list ChatSession.t
}.

Definition newest_first {A} (key : A -> datetime) (a b : A) : Prop :=
  (key b <= key a)%N.

(** What the two queries ask of the engine: the selected rows, each once,
    in non-increasing [created_at]. *)
Definition lawful_lists (L : ListEngine) : Prop :=
  (forall l, Permutation l (order_agents_desc L l))
  /\ (forall l, StronglySorted (newest_first Agent.created_at) (order_agents_desc L l))
  /\ (forall l, Permutation l (order_sessions_desc L l))
  /\ (forall l, StronglySorted (newest_first ChatSession.created_at)
                               (order_sessions_desc L l)).

Definition list_agents (L : ListEngine) : M (list Agent.t) :=
  gets (fun w => order_agents_desc L (agents w)).

Definition list_sessions (L : ListEngine) (agent_id : string) : M (list ChatSession.t) :=
  _ <- get_agent agent_id ;;
  gets (fun w => order_sessions_desc L (filter (owned_by agent_id) (sessions w))).

(** An engine for the listings: insertion sort, newest first. *)
Fixpoint insert_newest {A} (key : A -> datetime) (x : A) (l : list A) : list A :=
  match l with
  | [] => [x]
  | y :: l' => if (key y <=? key x)%N then x :: y :: l'
               else y :: insert_newest key x l'
  end.

Definition sort_newest_first {A} (key : A -> datetime) (l : list A) : list A :=
  fold_right (insert_newest key) [] l.

Definition insertion_lists : ListEngine :=
  {| order_agents_desc := sort_newest_first Agent.created_at;
     order_sessions_desc := sort_newest_first ChatSession.created_at |}.

(** ** The value [generate_speech] returns

    [output_path.split("/")[-1] if "/" in output_path
     else output_path.split("\\")[-1]] *)

(** [c in s] for a single character. *)
Fixpoint contains_char (c : ascii) (s : string) : bool :=
  match s with
  | EmptyString => false
  | String a s' => Ascii.eqb a c || contains_char c s'
  end.

(** [s.split(c)[-1]]: what follows the last [c], all of [s] when there is
    none. *)
Fixpoint last_piece (c : ascii) (s : string) : string :=
  match s with
  | EmptyString => EmptyString
  | String a s' =>
      if contains_char c s' then last_piece c s'
      else if Ascii.eqb a c then s' else s
  end.

Definition backslash : ascii := ascii_of_nat 92.

Definition generate_speech_result (output_path : string) : string :=
  if contains_char "/"%char output_path then last_piece "/"%char output_path
  else last_piece backslash output_path.

(** ** What the rows of a reachable state look like *)

Definition agent_known (l : list Agent.t) (s : ChatSession.t) : Prop :=
  existsb (fun a => Agent.id a =? ChatSession.agent_id s) l = true.

Definition role_ok (m : Message.t) : Prop :=
  Message.role m = "user" \/ Message.role m = "assistant".

Definition titled (s : ChatSession.t) : Prop :=
  exists t, ChatSession.title s = Some t /\ t <> "".

Definition row_of (session_id : string) (m : Message.t) : Prop :=
  Message.session_id m = session_id /\ role_ok m.

(** What one request does to the three tables. *)
Inductive table_effect (w w' : World) : Prop :=
| effect_none :
    agents w' = agents w -> sessions w' = sessions w -> messages w' = messages w ->
    table_effect w w'
| effect_add_agent a :
    agents w' = (agents w ++ [a])%list ->
    sessions w' = sessions w -> messages w' = messages w ->
    table_effect w w'
| effect_update_agent :
    map Agent.id (agents w') = map Agent.id (agents w) ->
    sessions w' = sessions w -> messages w' = messages w ->
    table_effect w w'
| effect_delete_agent agent_id :
    agents w' = filter (fun a => negb (Agent.id a =? agent_id)) (agents w) ->
    sessions w' = filter (fun s => negb (owned_by agent_id s)) (sessions w) ->
    messages w' = filter (fun m => negb (in_sessions
                                           (filter (owned_by agent_id) (sessions w)) m))
                         (messages w) ->
    table_effect w w'
| effect_add_session s :
    agent_known (agents w) s -> titled s ->
    agents w' = agents w ->
    sessions w' = (sessions w ++ [s])%list -> messages w' = messages w ->
    table_effect w w'
| effect_delete_session session_id :
    agents w' = agents w ->
    sessions w' = filter (fun s => negb (ChatSession.id s =? session_id)) (sessions w) ->
    messages w' = filter (fun m => negb (Message.session_id m =? session_id))
                         (messages w) ->
    table_effect w w'
| effect_add_messages session_id added :
    (exists s, In s (sessions w) /\ ChatSession.id s = session_id) ->
    Forall (row_of session_id) added ->
    agents w' = agents w -> sessions w' = sessions w ->
    messages w' = (messages w ++ added)%list ->
    table_effect w w'
| effect_voice session_id added k am' :
    (exists s, In s (sessions w) /\ ChatSession.id s = session_id) ->
    Forall (row_of session_id) added -> row_of session_id am' ->
    agents w' = agents w -> sessions w' = sessions w ->
    messages w' = map (fun m => if Message.id m =? k then am' else m)
                      (messages w ++ added) ->
    table_effect w w'.

(** ** The scenario of the test suite

    An agent, a session under it, a second agent, and the stubbed provider
    of [tests/test_messages.py]. *)

Definition test_agent : Agent.t :=
  Agent.make "agent-1" "Test Agent" "You are a test agent." 1000000%N 1000000%N.

Definition w_agent : World :=
  snd (create_agent {| create_name := "Test Agent";
                       create_prompt := "You are a test agent." |}
                    (defaults "agent-1" 1000000%N) 1000000%N empty_world).

Definition w_session : World :=
  snd (create_session "agent-1" (Some "Test Session") 2000000%N
                      (defaults "session-1" 2000000%N) w_agent).

Definition w_two_agents : World :=
  snd (create_agent {| create_name := "Agent Two"; create_prompt := "Prompt two" |}
                    (defaults "agent-2" 2500000%N) 2500000%N w_session).

Definition mock_ai : OpenAI :=
  {| chat_completions_create := fun _ => Some "Hello! How can I help you?";
     audio_transcriptions_create := fun _ _ => Some "Hello voice";
     audio_speech_create := fun _ => Some "mp3" |}.

Definition chat_down : OpenAI :=
  {| chat_completions_create := fun _ => None;
     audio_transcriptions_create := fun _ _ => Some "Hello voice";
     audio_speech_create := fun _ => Some "mp3" |}.

Definition speech_down : OpenAI :=
  {| chat_completions_create := fun _ => Some "Hello from AI";
     audio_transcriptions_create := fun _ _ => Some "Hello voice";
     audio_speech_create := fun _ => None |}.

Definition transcription_down : OpenAI :=
  {| chat_completions_create := fun _ => Some "Hello from AI";
     audio_transcriptions_create := fun _ _ => None;
     audio_speech_create := fun _ => Some "mp3" |}.

Definition d_user : Defaults := defaults "message-1" 3000000%N.
Definition d_assistant : Defaults := defaults "message-2" 4000000%N.

Definition um1 : Message.t :=
  Message.make "message-1" "session-1" "user" "Hi there" None 3000000%N.
Definition am1 : Message.t :=
  Message.make "message-2" "session-1" "assistant" "Hello! How can I help you?"
               None 4000000%N.

Definition w_chatted : World :=
  snd (send_message mock_ai stable_engine "agent-1" "session-1" "Hi there"
                    d_user d_assistant w_session).

Definition w_voice : World :=
  snd (voice_interaction mock_ai stable_engine "agent-1" "session-1"
         (Some "recording.webm") "audio" d_user d_assistant
         "0123456789abcdef0123456789abcdef" w_session).

(** A second exchange in the session that has had one. *)
Definition d_user2 : Defaults := defaults "message-3" 5000000%N.
Definition d_assistant2 : Defaults := defaults "message-4" 6000000%N.

(** An exchange whose two rows get the same timestamp. *)
Definition um_instant : Message.t :=
  Message.make "message-1" "session-1" "user" "Hi there" None 3000000%N.
Definition am_instant : Message.t :=
  Message.make "message-2" "session-1" "assistant" "Hello! How can I help you?"
               None 3000000%N.

Definition w_same_instant : World :=
  snd (send_message mock_ai stable_engine "agent-1" "session-1" "Hi there"
                    (defaults "message-1" 3000000%N) (defaults "message-2" 3000000%N)
                    w_session).

(** Five minutes and seven seconds past one in the afternoon. *)
Definition t_afternoon : datetime := 47107000000%N.

Definition w_two_sessions : World :=
  snd (create_session "agent-1" None 3000000%N (defaults "session-2" 3000000%N)
                      w_session).

(** * Properties *)

Ltac unfold_monad :=
  unfold bind, ret, raise, gets, modify, scalar_one_or_none in *.

(** ** The engine answers the query *)

Section Insertion.

Variable before : Message.t -> Message.t -> bool.
Hypothesis before_le : forall x y, before x y = true -> created_at_le x y.
Hypothesis before_ge : forall x y, before x y = false -> created_at_le y x.

Lemma insert_row_perm x l : Permutation (x :: l) (insert_row before x l).
Proof.
  induction l as [|y l IH]; simpl; [reflexivity|].
  destruct (before x y); [reflexivity|].
  rewrite perm_swap. now apply perm_skip.
Qed.

Lemma sort_rows_perm l : Permutation l (sort_rows before l).
Proof.
  induction l as [|x l IH]; simpl; [constructor|].
  rewrite <- insert_row_perm. now apply perm_skip.
Qed.

Lemma insert_row_sorted x l :
  StronglySorted created_at_le l ->
  StronglySorted created_at_le (insert_row before x l).
Proof.
  induction 1 as [|y l Hs IH Hy]; simpl.
  - repeat constructor.
  - destruct (before x y) eqn:Hb.
    + apply before_le in Hb.
      constructor; [now constructor|].
      constructor; [exact Hb|].
      eapply Forall_impl; [|exact Hy].
      intros z Hz. unfold created_at_le in *. lia.
    + apply before_ge in Hb.
      constructor; [exact IH|].
      eapply Permutation_Forall; [apply insert_row_perm|].
      now constructor.
Qed.

Lemma sort_rows_sorted l : StronglySorted created_at_le (sort_rows before l).
Proof.
  induction l as [|x l IH]; simpl; [constructor|].
  now apply insert_row_sorted.
Qed.

End Insertion.

Lemma leb_created_at_le x y : leb_created_at x y = true -> created_at_le x y.
Proof. unfold leb_created_at, created_at_le. intros H. now apply N.leb_le. Qed.

Lemma leb_created_at_ge x y : leb_created_at x y = false -> created_at_le y x.
Proof.
  unfold leb_created_at, created_at_le. intros H. apply N.leb_gt in H. lia.
Qed.

Lemma stable_engine_lawful : lawful stable_engine.
Proof.
  split; intros l; simpl.
  - apply sort_rows_perm.
  - apply sort_rows_sorted; [apply leb_created_at_le|apply leb_created_at_ge].
Qed.

(** Inserting a row leaves the rows of every timestamp in the order they
    had, the new row first among those of its own timestamp. *)
Lemma insert_row_at_time t x l :
  filter (at_time t) (insert_row leb_created_at x l) = filter (at_time t) (x :: l).
Proof.
  induction l as [|y l IH]; [reflexivity|].
  cbn [insert_row]. destruct (leb_created_at x y) eqn:Hb; [reflexivity|].
  cbn [filter] in *. rewrite IH.
  destruct (at_time t x) eqn:Hx, (at_time t y) eqn:Hy; try reflexivity.
  unfold at_time in Hx, Hy. apply N.eqb_eq in Hx, Hy.
  unfold leb_created_at in Hb. apply N.leb_gt in Hb. lia.
Qed.

Lemma sort_rows_at_time t l :
  filter (at_time t) (sort_rows leb_created_at l) = filter (at_time t) l.
Proof.
  induction l as [|x l IH]; [reflexivity|].
  cbn [sort_rows fold_right]. fold (sort_rows leb_created_at l).
  rewrite insert_row_at_time. cbn [filter]. now rewrite IH.
Qed.

Lemma stable_engine_in_creation_order rows :
  in_creation_order rows (order_by_created_at_asc stable_engine rows).
Proof.
  destruct stable_engine_lawful as [Hperm Hsorted].
  split; [apply Hperm|]. split; [apply Hsorted|].
  intros t. apply sort_rows_at_time.
Qed.

(** A table that is already in non-decreasing [created_at] comes back as
    it is. *)
Lemma stable_engine_keeps_table_order (l : list Message.t) :
  StronglySorted created_at_le l ->
  order_by_created_at_asc stable_engine l = l.
Proof.
  simpl. induction 1 as [|x t Ht IH Hx]; simpl; [reflexivity|].
  rewrite IH. destruct t as [|y t']; simpl; [reflexivity|].
  inversion Hx as [|? ? Hxy _]; subst.
  unfold leb_created_at. unfold created_at_le in Hxy.
  apply N.leb_le in Hxy. now rewrite Hxy.
Qed.

(** ** Running the handlers *)

Lemma get_agent_inv agent_id w r w' :
  get_agent agent_id w = (r, w') ->
  w' = w /\
  match r with
  | Ok a => filter (fun a => Agent.id a =? agent_id) (agents w) = [a]
  | Raise e =>
      (e = NotFound_agent agent_id /\
       filter (fun a => Agent.id a =? agent_id) (agents w) = [])
      \/ e = MultipleResultsFound
  end.
Proof.
  unfold get_agent, select_agent. unfold_monad.
  destruct (filter _ (agents w)) as [|a [|b l]]; intros H; inversion H; subst; auto.
Qed.

Lemma get_session_or_404_inv session_id agent_id w r w' :
  _get_session_or_404 session_id agent_id w = (r, w') ->
  w' = w /\
  match r with
  | Ok s =>
      filter (fun s => (ChatSession.id s =? session_id) && owned_by agent_id s)
             (sessions w) = [s]
  | Raise e =>
      (e = NotFound_session session_id agent_id /\
       filter (fun s => (ChatSession.id s =? session_id) && owned_by agent_id s)
              (sessions w) = [])
      \/ e = MultipleResultsFound
  end.
Proof.
  unfold _get_session_or_404, select_session. unfold_monad.
  destruct (filter _ (sessions w)) as [|a [|b l]]; intros H; inversion H; subst; auto.
Qed.

Lemma lookups_run A agent_id session_id (k : Agent.t -> M A) w :
  (agent <- _get_agent_or_404 agent_id ;;
   _ <- _get_session_or_404 session_id agent_id ;;
   k agent) w =
  match resolved agent_id session_id w with
  | Ok agent => k agent w
  | Raise e => (Raise e, w)
  end.
Proof.
  unfold resolved, _get_agent_or_404.
  unfold bind at 1.
  destruct (get_agent agent_id w) as [[agent|e] w1] eqn:Ha;
    apply get_agent_inv in Ha; destruct Ha as [-> Ha]; [|reflexivity].
  unfold bind at 1.
  destruct (_get_session_or_404 session_id agent_id w) as [[s|e] w1] eqn:Hs;
    apply get_session_or_404_inv in Hs; destruct Hs as [-> Hs]; reflexivity.
Qed.

Lemma resolved_raise agent_id session_id w e :
  resolved agent_id session_id w = Raise e ->
  e = NotFound_agent agent_id \/ e = NotFound_session session_id agent_id
  \/ e = MultipleResultsFound.
Proof.
  unfold resolved.
  destruct (get_agent agent_id w) as [[agent|e1] w1] eqn:Ha;
    apply get_agent_inv in Ha; destruct Ha as [_ Ha].
  - destruct (_get_session_or_404 session_id agent_id w) as [[s|e2] w2] eqn:Hs;
      apply get_session_or_404_inv in Hs; destruct Hs as [_ Hs]; [discriminate|].
    intros H. inversion H; subst. tauto.
  - intros H. inversion H; subst. tauto.
Qed.

Lemma send_message_lookup ai E agent_id session_id payload du da w :
  send_message ai E agent_id session_id payload du da w =
  match resolved agent_id session_id w with
  | Ok agent => send_message_body ai E agent session_id payload du da w
  | Raise e => (Raise e, w)
  end.
Proof. apply lookups_run. Qed.

Lemma send_message_body_run ai E agent session_id payload du da w :
  let um := Message.make (new_id du) session_id "user" payload None (now du) in
  let w1 := set_messages (messages w ++ [um]) w in
  let prompt := full_messages_of E agent session_id (messages w ++ [um]) in
  let answer := chat_completions_create ai prompt in
  let w2 := set_calls (calls w ++ [ChatCall prompt answer]) w1 in
  send_message_body ai E agent session_id payload du da w =
  if existsb (fun x => Message.id x =? new_id du) (messages w)
  then (Raise IntegrityError, w)
  else match answer with
       | None => (Raise (UpstreamError Chat), w2)
       | Some text =>
           let am := Message.make (new_id da) session_id "assistant" text None (now da) in
           if existsb (fun x => Message.id x =? new_id da) (messages w ++ [um])
           then (Raise IntegrityError, w2)
           else (Ok (um, am), set_messages ((messages w ++ [um]) ++ [am]) w2)
       end.
Proof.
  intros um w1 prompt answer w2.
  unfold send_message_body, add_message, _build_conversation_history,
    select_messages, generate_chat_response, log_call.
  unfold_monad. simpl.
  destruct (existsb _ (messages w)); [reflexivity|]. simpl.
  fold um. fold (session_rows session_id (messages w ++ [um])).
  fold (full_messages_of E agent session_id (messages w ++ [um])). fold prompt. fold answer.
  destruct answer; [|reflexivity]. simpl.
  destruct (existsb _ (messages w ++ [um])); reflexivity.
Qed.

Lemma voice_interaction_lookup ai E agent_id session_id filename audio du da hex w :
  voice_interaction ai E agent_id session_id filename audio du da hex w =
  match resolved agent_id session_id w with
  | Ok agent => voice_interaction_body ai E agent session_id filename audio du da hex w
  | Raise e => (Raise e, w)
  end.
Proof. apply lookups_run. Qed.

Lemma voice_interaction_body_run ai E agent session_id filename audio du da hex w :
  let heard := audio_transcriptions_create ai filename audio in
  let log0 := (calls w ++ [TranscriptionCall filename audio heard])%list in
  match heard with
  | None =>
      voice_interaction_body ai E agent session_id filename audio du da hex w =
      (Raise (UpstreamError Transcription), set_calls log0 w)
  | Some transcription_text =>
      let um := Message.make (new_id du) session_id "user" transcription_text
                             None (now du) in
      let prompt := full_messages_of E agent session_id (messages w ++ [um]) in
      let answer := chat_completions_create ai prompt in
      let log1 := (log0 ++ [ChatCall prompt answer])%list in
      voice_interaction_body ai E agent session_id filename audio du da hex w =
      if existsb (fun x => Message.id x =? new_id du) (messages w)
      then (Raise IntegrityError, set_calls log0 w)
      else match answer with
           | None =>
               (Raise (UpstreamError Chat),
                mkWorld (agents w) (sessions w) (messages w ++ [um]) (audio_files w) log1)
           | Some text =>
               let am := Message.make (new_id da) session_id "assistant" text
                                      None (now da) in
               if existsb (fun x => Message.id x =? new_id da) (messages w ++ [um])
               then (Raise IntegrityError,
                     mkWorld (agents w) (sessions w) (messages w ++ [um])
                             (audio_files w) log1)
               else
                 let spoken := audio_speech_create ai text in
                 let log2 := (log1 ++ [SpeechCall text spoken])%list in
                 match spoken with
                 | None =>
                     (Raise (UpstreamError Speech),
                      mkWorld (agents w) (sessions w) ((messages w ++ [um]) ++ [am])
                              (audio_files w) log2)
                 | Some audio_data =>
                     let am' := Message.with_audio_url
                                  (Some ("/api/audio/" ++ hex ++ ".mp3")) am in
                     (Ok (um, am'),
                      mkWorld (agents w) (sessions w)
                        (map (fun m => if Message.id m =? new_id da then am' else m)
                             ((messages w ++ [um]) ++ [am]))
                        (("audio_files/" ++ hex ++ ".mp3", audio_data) :: audio_files w)
                        log2)
                 end
           end
  end.
Proof.
  cbv zeta.
  unfold voice_interaction_body, transcribe_audio, add_message,
    _build_conversation_history, select_messages, generate_chat_response,
    generate_speech, set_audio_url, log_call, full_messages_of, session_rows.
  unfold_monad. simpl.
  destruct (audio_transcriptions_create ai filename audio) as [transcription_text|];
    [|reflexivity].
  simpl.
  destruct (existsb _ (messages w)); [reflexivity|]. simpl.
  destruct (chat_completions_create ai _) as [text|]; [|reflexivity]. simpl.
  destruct (existsb _ (messages w ++ [_])); [reflexivity|]. simpl.
  destruct (audio_speech_create ai text); reflexivity.
Qed.

Lemma existsb_id_false (l : list Message.t) (i : string) :
  existsb (fun x => Message.id x =? i) l = false ->
  ~ In i (map Message.id l).
Proof.
  intros H Hin. apply in_map_iff in Hin. destruct Hin as [x [Hx Hin]].
  assert (existsb (fun x => Message.id x =? i) l = true) as Ht.
  { apply existsb_exists. exists x. split; [exact Hin|]. now apply String.eqb_eq. }
  congruence.
Qed.

(** ** Text messages *)

(** C1: a successful [send_message] appends to the message table exactly
    the user row (role [user], the request's text) and then the assistant
    row (role [assistant], the text the chat completion returned on the
    prompt built from the history), both under the given session, both new,
    both without audio reference, and returns this pair; the other tables
    are untouched. *)
Theorem send_message_persists_pair ai E agent_id session_id user_text du da w um am w' :
  send_message ai E agent_id session_id user_text du da w = (Ok (um, am), w') ->
  exists agent assistant_text,
    resolved agent_id session_id w = Ok agent /\
    chat_completions_create ai
      (full_messages_of E agent session_id (messages w ++ [um])) = Some assistant_text /\
    um = Message.make (new_id du) session_id "user" user_text None (now du) /\
    am = Message.make (new_id da) session_id "assistant" assistant_text None (now da) /\
    messages w' = (messages w ++ [um; am])%list /\
    ~ In (Message.id um) (map Message.id (messages w)) /\
    ~ In (Message.id am) (map Message.id (messages w ++ [um])) /\
    agents w' = agents w /\ sessions w' = sessions w.
Proof.
  rewrite send_message_lookup.
  destruct (resolved agent_id session_id w) as [agent|e] eqn:Hr; [|discriminate].
  rewrite send_message_body_run.
  destruct (existsb _ (messages w)) eqn:Hu; [discriminate|].
  destruct (chat_completions_create ai _) as [text|] eqn:Hc; [|discriminate].
  destruct (existsb _ (messages w ++ [_])) eqn:Hv; [discriminate|].
  intros H. inversion H; subst; clear H.
  exists agent, text. simpl.
  repeat split; auto.
  - now rewrite <- app_assoc.
  - now apply existsb_id_false.
  - now apply existsb_id_false in Hv.
Qed.

(** ** The prompt sent to the chat completion *)

Lemma filter_permutation A (f : A -> bool) (l l' : list A) :
  Permutation l l' -> Permutation (filter f l) (filter f l').
Proof.
  induction 1 as [|x l l' _ IH|x y l|l l' l'' _ IH1 _ IH2]; simpl.
  - constructor.
  - destruct (f x); [now apply perm_skip|exact IH].
  - destruct (f x), (f y); try reflexivity. apply perm_swap.
  - now rewrite IH1.
Qed.

Lemma filter_id_absent (l : list Message.t) (i : string) :
  ~ In i (map Message.id l) -> filter (fun m => Message.id m =? i) l = [].
Proof.
  induction l as [|x l IH]; simpl; intros H; [reflexivity|].
  destruct (Message.id x =? i) eqn:Hx.
  - apply String.eqb_eq in Hx. tauto.
  - apply IH. tauto.
Qed.

Lemma session_rows_app sid l l' :
  session_rows sid (l ++ l') = (session_rows sid l ++ session_rows sid l')%list.
Proof. apply filter_app. Qed.

Lemma session_rows_snoc sid l m :
  Message.session_id m = sid ->
  session_rows sid (l ++ [m]) = (session_rows sid l ++ [m])%list.
Proof.
  intros H. rewrite session_rows_app. simpl.
  rewrite H, String.eqb_refl. reflexivity.
Qed.

Lemma existsb_id_fresh (l : list Message.t) (i : string) :
  ~ In i (map Message.id l) ->
  existsb (fun x => Message.id x =? i) l = false.
Proof.
  intros H. destruct (existsb _ l) eqn:Hex; [|reflexivity].
  apply existsb_exists in Hex. destruct Hex as [x [Hin Hx]].
  apply String.eqb_eq in Hx. exfalso. apply H.
  apply in_map_iff. now exists x.
Qed.

Lemma in_creation_order_once rows l um :
  in_creation_order (rows ++ [um]) l ->
  ~ In (Message.id um) (map Message.id rows) ->
  List.length (filter (fun m => Message.id m =? Message.id um) l) = 1.
Proof.
  intros [Hperm _] Hfresh.
  rewrite <- (Permutation_length
                (filter_permutation (fun m => Message.id m =? Message.id um) Hperm)).
  rewrite filter_app. simpl. rewrite String.eqb_refl.
  now rewrite filter_id_absent.
Qed.

Lemma session_rows_ids sid l i :
  ~ In i (map Message.id l) -> ~ In i (map Message.id (session_rows sid l)).
Proof.
  intros Hfresh Hin. apply Hfresh.
  apply in_map_iff in Hin. destruct Hin as [x [Hx Hin]].
  apply in_map_iff. exists x. split; [exact Hx|].
  unfold session_rows in Hin. apply filter_In in Hin. tauto.
Qed.

(** C2: for an agent and a session that resolve and a user row whose id is
    new, on the configured engine.  [send_message] calls the chat completion
    once and makes no other gateway call; [voice_interaction], once the
    transcription has returned [heard], calls it once, after the
    transcription and before any speech synthesis.  In both the argument is
    the entry with role [system] and the agent's prompt, followed by one
    entry per row of the history carrying that row's role and content.  The
    history is the session's rows of the table followed by the user row of
    this request, put in creation order; it holds the user row exactly
    once; and it is that very list whenever the timestamps do not decrease
    along it. *)
Theorem chat_receives_system_then_history ai agent_id session_id du da w agent :
  resolved agent_id session_id w = Ok agent ->
  ~ In (new_id du) (map Message.id (messages w)) ->
  (forall text,
     let um := Message.make (new_id du) session_id "user" text None (now du) in
     let rows := (session_rows session_id (messages w) ++ [um])%list in
     exists history,
       in_creation_order rows history /\
       List.length (filter (fun m => Message.id m =? Message.id um) history) = 1 /\
       (StronglySorted created_at_le rows -> history = rows) /\
       let prompt :=
         chat_entry "system" (Agent.prompt agent)
           :: map (fun m => chat_entry (Message.role m) (Message.content m)) history in
       calls (snd (send_message ai stable_engine agent_id session_id text du da w))
       = (calls w ++ [ChatCall prompt (chat_completions_create ai prompt)])%list)
  /\
  (forall filename audio hex heard,
     audio_transcriptions_create ai filename audio = Some heard ->
     let um := Message.make (new_id du) session_id "user" heard None (now du) in
     let rows := (session_rows session_id (messages w) ++ [um])%list in
     exists history tts,
       in_creation_order rows history /\
       List.length (filter (fun m => Message.id m =? Message.id um) history) = 1 /\
       (StronglySorted created_at_le rows -> history = rows) /\
       let prompt :=
         chat_entry "system" (Agent.prompt agent)
           :: map (fun m => chat_entry (Message.role m) (Message.content m)) history in
       calls (snd (voice_interaction ai stable_engine agent_id session_id
                     filename audio du da hex w))
       = (calls w ++ TranscriptionCall filename audio (Some heard)
            :: ChatCall prompt (chat_completions_create ai prompt) :: tts)%list /\
       (tts = []
        \/ exists reply,
             chat_completions_create ai prompt = Some reply /\
             tts = [SpeechCall reply (audio_speech_create ai reply)])).
Proof.
  intros Hr Hfresh.
  assert (existsb (fun x => Message.id x =? new_id du) (messages w) = false) as Hu
    by now apply existsb_id_fresh.
  split.
  - intros text um rows.
    exists (order_by_created_at_asc stable_engine rows).
    split; [apply stable_engine_in_creation_order|].
    split.
    { apply in_creation_order_once with (rows := session_rows session_id (messages w)).
      - apply stable_engine_in_creation_order.
      - now apply session_rows_ids. }
    split; [apply stable_engine_keeps_table_order|].
    cbv zeta. rewrite send_message_lookup, Hr, send_message_body_run, Hu.
    unfold full_messages_of. rewrite session_rows_snoc by reflexivity.
    fold um. fold rows. unfold to_entry.
    destruct (chat_completions_create ai _) as [reply|];
      [destruct (existsb _ (messages w ++ [um]))|]; reflexivity.
  - intros filename audio hex heard Hheard um rows.
    pose proof (voice_interaction_body_run ai stable_engine agent session_id
                  filename audio du da hex w) as Hrun.
    cbv zeta in Hrun. rewrite Hheard, Hu in Hrun.
    unfold full_messages_of in Hrun.
    rewrite session_rows_snoc in Hrun by reflexivity.
    fold um in Hrun. fold rows in Hrun. unfold to_entry in Hrun.
    set (history := order_by_created_at_asc stable_engine rows) in *.
    set (prompt := chat_entry "system" (Agent.prompt agent)
                     :: map (fun m => chat_entry (Message.role m) (Message.content m))
                            history) in *.
    assert (in_creation_order rows history) as Hh
      by apply stable_engine_in_creation_order.
    assert (List.length (filter (fun m => Message.id m =? Message.id um) history) = 1)
      as Hone.
    { apply in_creation_order_once with (rows := session_rows session_id (messages w));
        [exact Hh|now apply session_rows_ids]. }
    assert (StronglySorted created_at_le rows -> history = rows) as Hsame
      by apply stable_engine_keeps_table_order.
    rewrite voice_interaction_lookup, Hr, Hrun. clear Hrun.
    destruct (chat_completions_create ai prompt) as [reply|] eqn:Hc.
    + destruct (existsb _ (messages w ++ [um])).
      * exists history, []. cbv zeta. fold prompt. rewrite Hc.
        repeat split; try assumption; try apply Hh.
        -- simpl. now rewrite <- app_assoc.
        -- now left.
      * exists history, [SpeechCall reply (audio_speech_create ai reply)].
        cbv zeta. fold prompt. rewrite Hc.
        repeat split; try assumption; try apply Hh.
        -- destruct (audio_speech_create ai reply); simpl; now rewrite <- !app_assoc.
        -- right. now exists reply.
    + exists history, []. cbv zeta. fold prompt. rewrite Hc.
      repeat split; try assumption; try apply Hh.
      * simpl. now rewrite <- app_assoc.
      * now left.
Qed.

(** ** A failing chat completion *)

(** C3: when the agent and the session resolve, the user row is stored and
    the chat completion fails on the prompt, [send_message] ends with that
    failure, raised by the gateway call and handled nowhere in the handler;
    the state it leaves is the state before the request plus the user row
    (and the logged call): no assistant row, nothing else changed. *)
Theorem chat_failure_keeps_user_message ai E agent_id session_id text du da w agent :
  let um := Message.make (new_id du) session_id "user" text None (now du) in
  let prompt := full_messages_of E agent session_id (messages w ++ [um]) in
  resolved agent_id session_id w = Ok agent ->
  ~ In (new_id du) (map Message.id (messages w)) ->
  chat_completions_create ai prompt = None ->
  send_message ai E agent_id session_id text du da w =
  (Raise (UpstreamError Chat),
   mkWorld (agents w) (sessions w) (messages w ++ [um]) (audio_files w)
           (calls w ++ [ChatCall prompt None])).
Proof.
  intros um prompt Hr Hfresh Hnone.
  rewrite send_message_lookup, Hr, send_message_body_run.
  rewrite (existsb_id_fresh _ _ Hfresh).
  fold um. fold prompt. rewrite Hnone. reflexivity.
Qed.

(** ** Primary keys stay unique *)

Section Keys.

Variables (A : Type) (key : A -> string).

Lemma NoDup_key_snoc (l : list A) (x : A) :
  NoDup (map key l) ->
  existsb (fun y => key y =? key x) l = false ->
  NoDup (map key (l ++ [x])).
Proof.
  intros Hl Hx. rewrite map_app. simpl.
  apply NoDup_app; [exact Hl|repeat constructor; auto|].
  intros k Hk [<-|[]].
  apply in_map_iff in Hk. destruct Hk as [y [Hy Hin]].
  assert (existsb (fun y => key y =? key x) l = true) as Ht.
  { apply existsb_exists. exists y. split; [exact Hin|]. now apply String.eqb_eq. }
  congruence.
Qed.

Lemma NoDup_key_filter (f : A -> bool) (l : list A) :
  NoDup (map key l) -> NoDup (map key (filter f l)).
Proof.
  induction l as [|x l IH]; simpl; intros H; [constructor|].
  inversion H as [|? ? Hx Hl]; subst.
  destruct (f x); simpl; [|now apply IH].
  constructor; [|now apply IH].
  intros Hin. apply Hx.
  apply in_map_iff in Hin. destruct Hin as [y [Hy Hin]].
  apply in_map_iff. exists y. split; [exact Hy|].
  apply filter_In in Hin. tauto.
Qed.

Lemma map_key_replace (k : string) (x' : A) (l : list A) :
  key x' = k ->
  map key (map (fun x => if key x =? k then x' else x) l) = map key l.
Proof.
  intros Hk. induction l as [|x l IH]; simpl; [reflexivity|].
  rewrite IH. destruct (key x =? k) eqn:Hx; [|reflexivity].
  apply String.eqb_eq in Hx. congruence.
Qed.

(** A lookup by primary key finds at most one row. *)
Lemma filter_key_unique (k : string) (l : list A) :
  NoDup (map key l) ->
  filter (fun x => key x =? k) l = []
  \/ exists x, filter (fun x => key x =? k) l = [x] /\ In x l /\ key x = k.
Proof.
  induction l as [|x l IH]; simpl; intros H; [now left|].
  inversion H as [|? ? Hx Hl]; subst.
  destruct (key x =? k) eqn:Hk.
  - apply String.eqb_eq in Hk. right. exists x.
    split; [|auto].
    destruct (IH Hl) as [->|[y [_ [Hin Hy]]]]; [reflexivity|].
    exfalso. apply Hx. apply in_map_iff. exists y. split; [congruence|exact Hin].
  - destruct (IH Hl) as [->|[y [-> [Hin Hy]]]]; [now left|].
    right. exists y. auto.
Qed.

End Keys.

Lemma add_agent_wf a w : wf w -> wf (snd (add_agent a w)).
Proof.
  intros [Ha [Hs Hm]]. unfold add_agent.
  destruct (existsb _ (agents w)) eqn:Hex; simpl; [now repeat split|].
  repeat split; simpl; auto. now apply NoDup_key_snoc.
Qed.

Lemma add_session_wf s w : wf w -> wf (snd (add_session s w)).
Proof.
  intros [Ha [Hs Hm]]. unfold add_session.
  destruct (existsb _ (sessions w)) eqn:Hex; simpl; [now repeat split|].
  repeat split; simpl; auto. now apply NoDup_key_snoc.
Qed.

Lemma get_agent_snd agent_id w : snd (get_agent agent_id w) = w.
Proof.
  destruct (get_agent agent_id w) as [r w'] eqn:H.
  apply get_agent_inv in H. now destruct H.
Qed.

Lemma get_session_or_404_snd session_id agent_id w :
  snd (_get_session_or_404 session_id agent_id w) = w.
Proof.
  destruct (_get_session_or_404 session_id agent_id w) as [r w'] eqn:H.
  apply get_session_or_404_inv in H. now destruct H.
Qed.

Lemma get_session_snd agent_id session_id w :
  snd (get_session agent_id session_id w) = w.
Proof.
  unfold get_session, bind.
  destruct (get_agent agent_id w) as [[a|e] w1] eqn:Ha;
    apply get_agent_inv in Ha; destruct Ha as [-> _]; [|reflexivity].
  apply get_session_or_404_snd.
Qed.

Lemma list_messages_snd E agent_id session_id w :
  snd (list_messages E agent_id session_id w) = w.
Proof.
  unfold list_messages. rewrite lookups_run.
  destruct (resolved agent_id session_id w); reflexivity.
Qed.

Lemma update_agent_tables agent_id payload t w :
  map Agent.id (agents (snd (update_agent agent_id payload t w))) = map Agent.id (agents w)
  /\ sessions (snd (update_agent agent_id payload t w)) = sessions w
  /\ messages (snd (update_agent agent_id payload t w)) = messages w
  /\ audio_files (snd (update_agent agent_id payload t w)) = audio_files w
  /\ calls (snd (update_agent agent_id payload t w)) = calls w.
Proof.
  unfold update_agent, select_agent, commit_agent. unfold_monad.
  destruct (filter _ (agents w)) as [|a [|b l]]; simpl; auto.
  destruct (setattr_text (Agent.name a) (update_name payload)); simpl; auto.
  destruct (setattr_text (Agent.prompt a) (update_prompt payload)); simpl; auto.
  repeat split. now apply map_key_replace.
Qed.

Lemma delete_agent_wf agent_id w : wf w -> wf (snd (delete_agent agent_id w)).
Proof.
  intros [Ha [Hs Hm]].
  unfold delete_agent, select_agent, delete_agent_cascade. unfold_monad.
  destruct (filter _ (agents w)) as [|a [|b l]]; simpl; try now repeat split.
  repeat split; simpl; now apply NoDup_key_filter.
Qed.

Lemma create_session_wf agent_id payload t d w :
  wf w -> wf (snd (create_session agent_id payload t d w)).
Proof.
  intros Hw. unfold create_session. unfold bind at 1.
  destruct (get_agent agent_id w) as [[a|e] w1] eqn:Ha;
    apply get_agent_inv in Ha; destruct Ha as [-> _]; [|exact Hw].
  unfold count_sessions. unfold_monad.
  destruct (falsy payload); now apply add_session_wf.
Qed.

Lemma delete_session_wf agent_id session_id w :
  wf w -> wf (snd (delete_session agent_id session_id w)).
Proof.
  intros Hw. unfold delete_session. unfold bind.
  destruct (_get_session_or_404 session_id agent_id w) as [[s|e] w1] eqn:Hs;
    apply get_session_or_404_inv in Hs; destruct Hs as [-> _]; [|exact Hw].
  destruct Hw as [Ha [Hs Hm]]. unfold modify. simpl.
  repeat split; simpl; auto; now apply NoDup_key_filter.
Qed.

Lemma send_message_wf ai E agent_id session_id text du da w :
  wf w -> wf (snd (send_message ai E agent_id session_id text du da w)).
Proof.
  intros Hw. rewrite send_message_lookup.
  destruct (resolved agent_id session_id w) as [agent|e]; [|exact Hw].
  rewrite send_message_body_run.
  destruct Hw as [Ha [Hs Hm]].
  destruct (existsb _ (messages w)) eqn:Hu; [now repeat split|].
  assert (NoDup (map Message.id (messages w ++ [Message.make (new_id du) session_id
            "user" text None (now du)]))) as Hm1 by now apply NoDup_key_snoc.
  destruct (chat_completions_create ai _) as [reply|]; [|now repeat split].
  destruct (existsb _ (messages w ++ [_])) eqn:Hv; [now repeat split|].
  repeat split; simpl; auto. now apply NoDup_key_snoc.
Qed.

Lemma voice_interaction_wf ai E agent_id session_id filename audio du da hex w :
  wf w ->
  wf (snd (voice_interaction ai E agent_id session_id filename audio du da hex w)).
Proof.
  intros Hw. rewrite voice_interaction_lookup.
  destruct (resolved agent_id session_id w) as [agent|e]; [|exact Hw].
  pose proof (voice_interaction_body_run ai E agent session_id filename audio
                du da hex w) as Hrun.
  cbv zeta in Hrun. destruct Hw as [Ha [Hs Hm]].
  destruct (audio_transcriptions_create ai filename audio) as [heard|];
    rewrite Hrun; clear Hrun; [|now repeat split].
  destruct (existsb _ (messages w)) eqn:Hu; [now repeat split|].
  assert (NoDup (map Message.id (messages w ++ [Message.make (new_id du) session_id
            "user" heard None (now du)]))) as Hm1 by now apply NoDup_key_snoc.
  destruct (chat_completions_create ai _) as [reply|]; [|now repeat split].
  destruct (existsb _ (messages w ++ [_])) eqn:Hv; [now repeat split|].
  assert (NoDup (map Message.id ((messages w ++ [Message.make (new_id du) session_id
            "user" heard None (now du)]) ++ [Message.make (new_id da) session_id
            "assistant" reply None (now da)]))) as Hm2 by now apply NoDup_key_snoc.
  destruct (audio_speech_create ai reply); [|now repeat split].
  repeat split; simpl; auto.
  rewrite map_key_replace; [exact Hm2|reflexivity].
Qed.

Lemma step_wf w w' : wf w -> step w w' -> wf w'.
Proof.
  intros Hw Hstep. destruct Hstep.
  - now apply add_agent_wf.
  - now rewrite get_agent_snd.
  - destruct Hw as [Ha [Hs Hm]].
    destruct (update_agent_tables agent_id payload t w) as [Ea [Es [Em _]]].
    unfold wf. now rewrite Ea, Es, Em.
  - now apply delete_agent_wf.
  - now apply create_session_wf.
  - now rewrite get_session_snd.
  - now apply delete_session_wf.
  - now apply send_message_wf.
  - now rewrite list_messages_snd.
  - now apply voice_interaction_wf.
Qed.

Lemma reachable_wf w : reachable w -> wf w.
Proof.
  induction 1 as [|w w' _ IH Hstep].
  - repeat split; constructor.
  - eapply step_wf; eassumption.
Qed.

(** ** The audio reference *)

Lemma audio_ok_none log files m : Message.audio_url m = None -> audio_ok log files m.
Proof. intros H u Hu. congruence. Qed.

Lemma audio_ok_mono log files log' files' m :
  incl log log' -> incl files files' ->
  audio_ok log files m -> audio_ok log' files' m.
Proof.
  intros Hl Hf Hm u Hu. destruct (Hm u Hu) as [Hrole [hex [data [-> [Hc Hfile]]]]].
  split; [exact Hrole|]. exists hex, data. auto.
Qed.

Lemma audio_inv_mono log files log' files' l :
  incl log log' -> incl files files' ->
  Forall (audio_ok log files) l -> Forall (audio_ok log' files') l.
Proof.
  intros Hl Hf. apply Forall_impl. intros m. now apply audio_ok_mono.
Qed.

Lemma Forall_filter_keep A (P : A -> Prop) (f : A -> bool) (l : list A) :
  Forall P l -> Forall P (filter f l).
Proof.
  rewrite !Forall_forall. intros H x Hx. apply filter_In in Hx. now apply H.
Qed.

Lemma Forall_replace A (P : A -> Prop) (f : A -> bool) (x' : A) (l : list A) :
  P x' -> Forall P l -> Forall P (map (fun x => if f x then x' else x) l).
Proof.
  intros Hx. induction 1; simpl; constructor; auto.
  now destruct (f x).
Qed.

Lemma Forall_snoc A (P : A -> Prop) (l : list A) (x : A) :
  Forall P l -> P x -> Forall P (l ++ [x]).
Proof. intros Hl Hx. apply Forall_app. split; [exact Hl|now constructor]. Qed.

Lemma audio_inv_log log log' files l :
  Forall (audio_ok log files) l -> Forall (audio_ok (log ++ log') files) l.
Proof. apply audio_inv_mono; [now apply incl_appl|apply incl_refl]. Qed.

Lemma send_message_audio_inv ai E agent_id session_id text du da w :
  audio_inv w -> audio_inv (snd (send_message ai E agent_id session_id text du da w)).
Proof.
  unfold audio_inv. intros Hw. rewrite send_message_lookup.
  destruct (resolved agent_id session_id w) as [agent|e]; [|exact Hw].
  rewrite send_message_body_run.
  destruct (existsb _ (messages w)); [exact Hw|].
  assert (forall log',
    Forall (audio_ok (calls w ++ log') (audio_files w))
      (messages w ++ [Message.make (new_id du) session_id "user" text None (now du)]))
    as Hum.
  { intros log'. apply Forall_snoc; [now apply audio_inv_log|now apply audio_ok_none]. }
  destruct (chat_completions_create ai _) as [reply|]; simpl; [|apply Hum].
  destruct (existsb _ (messages w ++ [_])); simpl; [apply Hum|].
  apply Forall_snoc; [apply Hum|now apply audio_ok_none].
Qed.

Lemma voice_interaction_audio_inv ai E agent_id session_id filename audio du da hex w :
  audio_inv w ->
  audio_inv (snd (voice_interaction ai E agent_id session_id filename audio du da hex w)).
Proof.
  unfold audio_inv. intros Hw. rewrite voice_interaction_lookup.
  destruct (resolved agent_id session_id w) as [agent|e]; [|exact Hw].
  pose proof (voice_interaction_body_run ai E agent session_id filename audio
                du da hex w) as Hrun.
  cbv zeta in Hrun.
  destruct (audio_transcriptions_create ai filename audio) as [heard|];
    rewrite Hrun; clear Hrun; simpl; [|now apply audio_inv_log].
  destruct (existsb _ (messages w)); simpl; [now apply audio_inv_log|].
  assert (forall log' files',
    incl (audio_files w) files' ->
    Forall (audio_ok (calls w ++ log') files')
      (messages w ++ [Message.make (new_id du) session_id "user" heard None (now du)]))
    as Hum.
  { intros log' files' Hi. apply Forall_snoc; [|now apply audio_ok_none].
    eapply audio_inv_mono; [| |exact Hw]; [now apply incl_appl|exact Hi]. }
  destruct (chat_completions_create ai _) as [reply|]; simpl.
  2:{ rewrite <- app_assoc. apply Hum, incl_refl. }
  destruct (existsb _ (messages w ++ [_])); simpl.
  { rewrite <- app_assoc. apply Hum, incl_refl. }
  destruct (audio_speech_create ai reply) as [data|] eqn:Hd; simpl.
  - apply Forall_replace.
    + intros u Hu. simpl in Hu. inversion Hu; subst. split; [reflexivity|].
      exists hex, data. split; [reflexivity|]. split.
      * apply in_or_app. right. now left.
      * now left.
    + apply Forall_snoc; [|now apply audio_ok_none].
      rewrite <- !app_assoc. apply Hum. now apply incl_tl, incl_refl.
  - apply Forall_snoc; [|now apply audio_ok_none].
    rewrite <- !app_assoc. apply Hum, incl_refl.
Qed.

Lemma create_session_frame agent_id payload t d w :
  agents (snd (create_session agent_id payload t d w)) = agents w
  /\ messages (snd (create_session agent_id payload t d w)) = messages w
  /\ audio_files (snd (create_session agent_id payload t d w)) = audio_files w
  /\ calls (snd (create_session agent_id payload t d w)) = calls w.
Proof.
  unfold create_session, bind.
  destruct (get_agent agent_id w) as [[a|e] w1] eqn:Ha;
    apply get_agent_inv in Ha; destruct Ha as [-> _]; [|now repeat split].
  unfold count_sessions, add_session, gets, ret.
  destruct (falsy payload); simpl; now destruct (existsb _ (sessions w)).
Qed.

Lemma delete_session_frame agent_id session_id w :
  agents (snd (delete_session agent_id session_id w)) = agents w
  /\ (exists f, messages (snd (delete_session agent_id session_id w))
                = filter f (messages w))
  /\ audio_files (snd (delete_session agent_id session_id w)) = audio_files w
  /\ calls (snd (delete_session agent_id session_id w)) = calls w.
Proof.
  unfold delete_session, bind.
  destruct (_get_session_or_404 session_id agent_id w) as [[s|e] w1] eqn:Hs;
    apply get_session_or_404_inv in Hs; destruct Hs as [-> _]; simpl.
  - repeat split. eexists. reflexivity.
  - repeat split. exists (fun _ => true). clear. induction (messages w); simpl; congruence.
Qed.

Lemma delete_agent_frame agent_id w :
  (exists f, messages (snd (delete_agent agent_id w)) = filter f (messages w))
  /\ audio_files (snd (delete_agent agent_id w)) = audio_files w
  /\ calls (snd (delete_agent agent_id w)) = calls w.
Proof.
  assert (forall l : list Message.t, l = filter (fun _ => true) l) as Hid.
  { induction l; simpl; congruence. }
  unfold delete_agent, select_agent, delete_agent_cascade. unfold_monad.
  destruct (filter _ (agents w)) as [|a [|b l]]; simpl; repeat split; eauto.
Qed.

Lemma step_audio_inv w w' : audio_inv w -> step w w' -> audio_inv w'.
Proof.
  unfold audio_inv. intros Hw Hstep. destruct Hstep.
  - unfold create_agent, add_agent. now destruct (existsb _ (agents w)).
  - now rewrite get_agent_snd.
  - destruct (update_agent_tables agent_id payload t w) as [_ [_ [Em [Ef Ec]]]].
    now rewrite Em, Ef, Ec.
  - destruct (delete_agent_frame agent_id w) as [[f Em] [Ef Ec]].
    rewrite Em, Ef, Ec. now apply Forall_filter_keep.
  - destruct (create_session_frame agent_id payload t d w) as [_ [Em [Ef Ec]]].
    now rewrite Em, Ef, Ec.
  - now rewrite get_session_snd.
  - destruct (delete_session_frame agent_id session_id w) as [_ [[f Em] [Ef Ec]]].
    rewrite Em, Ef, Ec. now apply Forall_filter_keep.
  - now apply send_message_audio_inv.
  - now rewrite list_messages_snd.
  - now apply voice_interaction_audio_inv.
Qed.

Lemma reachable_audio_inv w : reachable w -> audio_inv w.
Proof.
  induction 1 as [|w w' _ IH Hstep]; [constructor|].
  eapply step_audio_inv; eassumption.
Qed.

Lemma replace_fresh_snoc (l : list Message.t) (am am' : Message.t) :
  existsb (fun x => Message.id x =? Message.id am) l = false ->
  map (fun m => if Message.id m =? Message.id am then am' else m) (l ++ [am])
  = (l ++ [am'])%list.
Proof.
  intros H. rewrite map_app. simpl. rewrite String.eqb_refl. f_equal.
  induction l as [|x l IH]; simpl in *; [reflexivity|].
  apply orb_false_iff in H. destruct H as [Hx Hl].
  rewrite Hx, IH; auto.
Qed.

(** C4: in every reachable state a row that carries an audio reference is
    an assistant row for whose text the speech synthesis has answered, and
    the reference is [/api/audio/<hex>.mp3] for the file written from that
    answer.  From such a state, [voice_interaction] that fails in the
    synthesis leaves the user row and the assistant row stored without
    audio reference and writes no file; when it returns, the assistant row
    carries [/api/audio/<hex>.mp3] and the synthesis has answered on its
    text; and every row [send_message] adds is without audio reference,
    earlier rows being kept as they are. *)
Theorem audio_url_only_after_speech w :
  reachable w ->
  audio_inv w
  /\ (forall ai E agent_id session_id filename audio du da hex w',
        voice_interaction ai E agent_id session_id filename audio du da hex w
          = (Raise (UpstreamError Speech), w') ->
        exists um am,
          messages w' = (messages w ++ [um; am])%list /\
          Message.role um = "user" /\ Message.audio_url um = None /\
          Message.role am = "assistant" /\ Message.audio_url am = None /\
          audio_speech_create ai (Message.content am) = None /\
          audio_files w' = audio_files w)
  /\ (forall ai E agent_id session_id filename audio du da hex um am w',
        voice_interaction ai E agent_id session_id filename audio du da hex w
          = (Ok (um, am), w') ->
        messages w' = (messages w ++ [um; am])%list /\
        Message.audio_url um = None /\
        Message.audio_url am = Some ("/api/audio/" ++ hex ++ ".mp3") /\
        exists audio_data,
          audio_speech_create ai (Message.content am) = Some audio_data /\
          audio_files w' = ("audio_files/" ++ hex ++ ".mp3", audio_data) :: audio_files w)
  /\ (forall ai E agent_id session_id text du da r w',
        send_message ai E agent_id session_id text du da w = (r, w') ->
        exists added,
          messages w' = (messages w ++ added)%list /\
          Forall (fun m => Message.audio_url m = None) added /\
          audio_files w' = audio_files w).
Proof.
  intros Hreach. split; [now apply reachable_audio_inv|]. split; [|split].
  - intros ai E agent_id session_id filename audio du da hex w'.
    rewrite voice_interaction_lookup.
    destruct (resolved agent_id session_id w) as [agent|e] eqn:Hr.
    2:{ apply resolved_raise in Hr. intros H. inversion H; subst.
        destruct Hr as [Hr|[Hr|Hr]]; discriminate Hr. }
    pose proof (voice_interaction_body_run ai E agent session_id filename audio
                  du da hex w) as Hrun.
    cbv zeta in Hrun.
    destruct (audio_transcriptions_create ai filename audio) as [heard|];
      rewrite Hrun; clear Hrun; [|discriminate].
    destruct (existsb _ (messages w)); [discriminate|].
    destruct (chat_completions_create ai _) as [reply|]; [|discriminate].
    destruct (existsb _ (messages w ++ [_])); [discriminate|].
    destruct (audio_speech_create ai reply) eqn:Hd; [discriminate|].
    intros H. inversion H; subst; clear H. simpl.
    eexists. eexists. split; [now rewrite <- app_assoc|]. simpl. repeat split; auto.
  - intros ai E agent_id session_id filename audio du da hex um am w'.
    rewrite voice_interaction_lookup.
    destruct (resolved agent_id session_id w) as [agent|e]; [|discriminate].
    pose proof (voice_interaction_body_run ai E agent session_id filename audio
                  du da hex w) as Hrun.
    cbv zeta in Hrun.
    destruct (audio_transcriptions_create ai filename audio) as [heard|];
      rewrite Hrun; clear Hrun; [|discriminate].
    destruct (existsb _ (messages w)); [discriminate|].
    destruct (chat_completions_create ai _) as [reply|]; [|discriminate].
    destruct (existsb _ (messages w ++ [_])) eqn:Hv; [discriminate|].
    destruct (audio_speech_create ai reply) as [data|] eqn:Hd; [|discriminate].
    intros H. inversion H; subst; clear H. simpl.
    split.
    { pose proof (@replace_fresh_snoc (messages w ++ [Message.make (new_id du)
                    session_id "user" heard None (now du)])
                    (Message.make (new_id da) session_id "assistant" reply None (now da))
                    (Message.with_audio_url (Some ("/api/audio/" ++ hex ++ ".mp3"))
                       (Message.make (new_id da) session_id "assistant" reply None
                                     (now da))) Hv) as Hmap.
      simpl in Hmap. rewrite Hmap. now rewrite <- app_assoc. }
    split; [reflexivity|]. split; [reflexivity|].
    exists data. auto.
  - intros ai E agent_id session_id text du da r w'.
    rewrite send_message_lookup.
    destruct (resolved agent_id session_id w) as [agent|e].
    2:{ intros H. inversion H; subst. exists []. rewrite app_nil_r. auto. }
    rewrite send_message_body_run.
    destruct (existsb _ (messages w)).
    { intros H. inversion H; subst. exists []. rewrite app_nil_r. auto. }
    destruct (chat_completions_create ai _) as [reply|].
    + destruct (existsb _ (messages w ++ [_])); intros H; inversion H; subst; simpl.
      * eexists. split; [reflexivity|]. split; [|reflexivity]. now repeat constructor.
      * eexists. split; [now rewrite <- app_assoc|]. split; [|reflexivity].
        now repeat constructor.
    + intros H; inversion H; subst; simpl.
      eexists. split; [reflexivity|]. split; [|reflexivity]. now repeat constructor.
Qed.

(** ** Sessions are looked up under their agent *)

Lemma filter_nil_existsb A (f : A -> bool) (l : list A) :
  filter f l = [] -> existsb f l = false.
Proof.
  induction l as [|x l IH]; simpl; [reflexivity|].
  destruct (f x); [discriminate|exact IH].
Qed.

Lemma filter_cons_existsb A (f : A -> bool) (l : list A) x l' :
  filter f l = x :: l' -> existsb f l = true.
Proof.
  intros H. apply existsb_exists. exists x.
  apply filter_In. rewrite H. now left.
Qed.

Lemma filter_none A (f : A -> bool) (l : list A) :
  (forall x, In x l -> f x = false) -> filter f l = [].
Proof.
  induction l as [|x l IH]; simpl; intros H; [reflexivity|].
  rewrite (H x (or_introl eq_refl)). apply IH. auto.
Qed.

Lemma get_agent_wf_run agent_id w :
  wf w ->
  (has_agent agent_id w = false /\
   get_agent agent_id w = (Raise (NotFound_agent agent_id), w))
  \/ (exists agent, has_agent agent_id w = true /\ In agent (agents w) /\
        Agent.id agent = agent_id /\ get_agent agent_id w = (Ok agent, w)).
Proof.
  intros [Ha _]. unfold get_agent, select_agent, has_agent. unfold_monad.
  destruct (filter_key_unique Agent.id agent_id (agents w) Ha) as [H|[x [H [Hin Hx]]]].
  - left. rewrite H. split; [now apply filter_nil_existsb|reflexivity].
  - right. exists x. rewrite H. erewrite filter_cons_existsb by exact H. auto.
Qed.

Lemma session_lookup_misses agent_id session_id w :
  not_a_session_of agent_id session_id w ->
  _get_session_or_404 session_id agent_id w
  = (Raise (NotFound_session session_id agent_id), w).
Proof.
  intros Hno. unfold _get_session_or_404, select_session. unfold_monad.
  rewrite filter_none; [reflexivity|].
  intros s Hin. unfold owned_by.
  destruct (ChatSession.id s =? session_id) eqn:Hid; [|reflexivity].
  apply String.eqb_eq in Hid. simpl.
  apply String.eqb_neq. now apply Hno.
Qed.

Lemma resolved_misses agent_id session_id w :
  wf w -> not_a_session_of agent_id session_id w ->
  resolved agent_id session_id w =
  Raise (if has_agent agent_id w then NotFound_session session_id agent_id
         else NotFound_agent agent_id).
Proof.
  intros Hw Hno. unfold resolved.
  destruct (get_agent_wf_run agent_id Hw) as [[-> ->]|[a [-> [_ [_ ->]]]]];
    [reflexivity|].
  now rewrite session_lookup_misses.
Qed.

Lemma get_session_misses agent_id session_id w :
  wf w -> not_a_session_of agent_id session_id w ->
  get_session agent_id session_id w =
  (Raise (if has_agent agent_id w then NotFound_session session_id agent_id
          else NotFound_agent agent_id), w).
Proof.
  intros Hw Hno. unfold get_session, bind.
  destruct (get_agent_wf_run agent_id Hw) as [[-> ->]|[a [-> [_ [_ ->]]]]];
    [reflexivity|].
  now apply session_lookup_misses.
Qed.

Lemma list_messages_misses E agent_id session_id w :
  wf w -> not_a_session_of agent_id session_id w ->
  list_messages E agent_id session_id w =
  (Raise (if has_agent agent_id w then NotFound_session session_id agent_id
          else NotFound_agent agent_id), w).
Proof.
  intros Hw Hno. unfold list_messages.
  now rewrite lookups_run, (resolved_misses Hw Hno).
Qed.

(** C5, whether or not the agent of the path exists: when the session id
    is unknown or belongs to another agent, the four handlers raise a 404 and leave the state as it was (no
    row added, no call to the provider): the session 404 when the agent of
    the path exists, the agent 404 when it does not. *)
Theorem session_lookup_is_scoped_to_agent agent_id session_id w :
  wf w ->
  not_a_session_of agent_id session_id w ->
  let e := if has_agent agent_id w then NotFound_session session_id agent_id
           else NotFound_agent agent_id in
  (forall ai E text du da,
     send_message ai E agent_id session_id text du da w = (Raise e, w))
  /\ (forall ai E filename audio du da hex,
        voice_interaction ai E agent_id session_id filename audio du da hex w
        = (Raise e, w))
  /\ (forall E, list_messages E agent_id session_id w = (Raise e, w))
  /\ get_session agent_id session_id w = (Raise e, w).
Proof.
  intros Hw Hno e.
  pose proof (resolved_misses Hw Hno) as Hr. fold e in Hr.
  repeat split; intros.
  - now rewrite send_message_lookup, Hr.
  - now rewrite voice_interaction_lookup, Hr.
  - now apply list_messages_misses.
  - now apply get_session_misses.
Qed.

(** ** The order of the history *)

(** A list in strictly increasing [created_at] has one sorted
    rearrangement: itself. *)
Lemma sorted_rearrangement_unique (l l' : list Message.t) :
  StronglySorted created_at_lt l ->
  Permutation l l' ->
  StronglySorted created_at_le l' ->
  l' = l.
Proof.
  intros Hl. revert l'.
  induction Hl as [|x t Ht IH Hx]; intros l' Hp Hs.
  - now apply Permutation_nil in Hp.
  - destruct l' as [|y t'].
    { apply Permutation_sym, Permutation_nil in Hp. discriminate. }
    assert (y = x) as ->.
    { assert (In y (x :: t)) as Hy
        by (eapply Permutation_in; [apply Permutation_sym, Hp|now left]).
      destruct Hy as [Hy|Hy]; [now symmetry|].
      assert (In x (y :: t')) as Hx' by (eapply Permutation_in; [exact Hp|now left]).
      destruct Hx' as [Hx'|Hx']; [exact Hx'|].
      rewrite Forall_forall in Hx. specialize (Hx y Hy).
      inversion Hs as [|? ? _ Hall]; subst.
      rewrite Forall_forall in Hall. specialize (Hall x Hx').
      unfold created_at_lt, created_at_le in *. lia. }
    f_equal. apply IH.
    + eapply Permutation_cons_inv. exact Hp.
    + now inversion Hs.
Qed.

Lemma list_messages_run E agent_id session_id w agent :
  resolved agent_id session_id w = Ok agent ->
  list_messages E agent_id session_id w = (Ok (history_of E session_id (messages w)), w).
Proof.
  intros Hr. unfold list_messages. now rewrite lookups_run, Hr.
Qed.

(** C6: for a session of the agent, on the configured engine,
    [list_messages] returns the rows of the session in creation order: all
    of them, each as often as the table holds it, in non-decreasing
    [created_at], and rows that share a [created_at] in the order in which
    the table holds them, which is the order of their insertion.  When the
    timestamps do not decrease along the rows of the table, equal ones
    included, the result is those rows as they are.  The history of the
    chat prompt is the same list: the prompt is the system entry followed
    by the role and content of each returned row. *)
Theorem list_messages_in_creation_order agent_id session_id w agent :
  resolved agent_id session_id w = Ok agent ->
  let rows := session_rows session_id (messages w) in
  exists l,
    list_messages stable_engine agent_id session_id w = (Ok l, w) /\
    in_creation_order rows l /\
    (StronglySorted created_at_le rows -> l = rows) /\
    full_messages_of stable_engine agent session_id (messages w)
      = chat_entry "system" (Agent.prompt agent)
          :: map (fun m => chat_entry (Message.role m) (Message.content m)) l.
Proof.
  intros Hr rows. exists (order_by_created_at_asc stable_engine rows).
  split; [now apply list_messages_run with agent|].
  split; [apply stable_engine_in_creation_order|].
  split; [apply stable_engine_keeps_table_order|].
  reflexivity.
Qed.

(** ** Default session titles *)

Lemma hour12_range t : (1 <= hour12 t <= 12)%N.
Proof.
  unfold hour12. cbv zeta.
  assert (hour t mod 12 < 12)%N as Hlt by (apply N.mod_upper_bound; discriminate).
  generalize dependent (hour t mod 12)%N. intros h Hlt.
  destruct (h =? 0)%N eqn:H0; [lia|].
  apply N.eqb_neq in H0. lia.
Qed.

(** [lstrip("0")] removes the padding of the hour and nothing else: the
    hour of the 12-hour clock is never 0. *)
Lemma lstrip_hour (h : N) (rest : string) :
  (1 <= h <= 12)%N ->
  lstrip "0"%char (pad2 h ++ rest) = str_N h ++ rest.
Proof.
  intros Hh.
  assert (h = 1 \/ h = 2 \/ h = 3 \/ h = 4 \/ h = 5 \/ h = 6 \/ h = 7 \/ h = 8
          \/ h = 9 \/ h = 10 \/ h = 11 \/ h = 12)%N as Hcases by lia.
  repeat (destruct Hcases as [->|Hcases]; [reflexivity|]).
  subst h. reflexivity.
Qed.

Lemma append_assoc (a b c : string) : (a ++ b) ++ c = a ++ (b ++ c).
Proof. induction a as [|x a IH]; simpl; [reflexivity|now rewrite IH]. Qed.

Lemma default_title_format (n : nat) (t : datetime) :
  default_title n t =
  "Chat " ++ str_nat n ++ " (" ++ str_N (hour12 t) ++ ":" ++ pad2 (minute t) ++ ":"
    ++ pad2 (second t) ++ " " ++ am_pm t ++ ")".
Proof.
  unfold default_title, strftime_I_M_S_p.
  rewrite lstrip_hour by apply hour12_range.
  now rewrite !append_assoc.
Qed.

Lemma prefix_append (a b : string) : String.prefix a (a ++ b) = true.
Proof.
  induction a as [|x a IH]; simpl; [now destruct b|].
  destruct (ascii_dec x x) as [_|Hx]; [exact IH|now destruct Hx].
Qed.

Lemma create_session_run agent_id payload t d w agent :
  get_agent agent_id w = (Ok agent, w) ->
  create_session agent_id payload t d w =
  add_session
    (ChatSession.make (new_id d) agent_id
       (if falsy payload then Some (default_title (count_of agent_id w + 1) t)
        else payload)
       (now d)) w.
Proof.
  intros Ha. unfold create_session. unfold bind at 1. rewrite Ha.
  unfold count_sessions, count_of. unfold_monad.
  now destruct (falsy payload).
Qed.

Lemma existsb_session_fresh (l : list ChatSession.t) (i : string) :
  ~ In i (map ChatSession.id l) ->
  existsb (fun x => ChatSession.id x =? i) l = false.
Proof.
  intros H. destruct (existsb _ l) eqn:Hex; [|reflexivity].
  apply existsb_exists in Hex. destruct Hex as [x [Hin Hx]].
  apply String.eqb_eq in Hx. exfalso. apply H.
  apply in_map_iff. now exists x.
Qed.

(** What one request does to the session table: nothing, or it removes
    rows, or it appends one row under a new id. *)
Lemma step_sessions w w' :
  step w w' ->
  (exists f, sessions w' = filter f (sessions w))
  \/ (exists s, sessions w' = (sessions w ++ [s])%list /\
        existsb (fun x => ChatSession.id x =? ChatSession.id s) (sessions w) = false).
Proof.
  assert (forall l : list ChatSession.t, l = filter (fun _ => true) l) as Hid.
  { induction l; simpl; congruence. }
  intros Hstep. destruct Hstep.
  - left. exists (fun _ => true). unfold create_agent, add_agent.
    destruct (existsb _ (agents w)); simpl; apply Hid.
  - left. exists (fun _ => true). rewrite get_agent_snd. apply Hid.
  - left. exists (fun _ => true).
    destruct (update_agent_tables agent_id payload t w) as [_ [-> _]]. apply Hid.
  - left. unfold delete_agent, select_agent, delete_agent_cascade. unfold_monad.
    destruct (filter _ (agents w)) as [|a [|b l]]; simpl; eauto.
  - unfold create_session, bind.
    destruct (get_agent agent_id w) as [[a|e] w1] eqn:Ha;
      apply get_agent_inv in Ha; destruct Ha as [-> _]; [|left; simpl; eauto].
    unfold count_sessions, add_session, gets, ret.
    destruct (falsy payload); simpl;
      (destruct (existsb _ (sessions w)) eqn:Hex; simpl; [left; eauto|right]);
      eexists; (split; [reflexivity|exact Hex]).
  - left. exists (fun _ => true). rewrite get_session_snd. apply Hid.
  - left. unfold delete_session, bind.
    destruct (_get_session_or_404 session_id agent_id w) as [[s|e] w1] eqn:Hs;
      apply get_session_or_404_inv in Hs; destruct Hs as [-> _]; simpl; eauto.
  - left. exists (fun _ => true). rewrite send_message_lookup.
    destruct (resolved agent_id session_id w) as [agent|e]; [|apply Hid].
    rewrite send_message_body_run.
    destruct (existsb _ (messages w)); [apply Hid|].
    destruct (chat_completions_create ai _); [|apply Hid].
    destruct (existsb _ (messages w ++ [_])); apply Hid.
  - left. exists (fun _ => true). rewrite list_messages_snd. apply Hid.
  - left. exists (fun _ => true). rewrite voice_interaction_lookup.
    destruct (resolved agent_id session_id w) as [agent|e]; [|apply Hid].
    pose proof (voice_interaction_body_run ai E agent session_id filename audio
                  du da hex w) as Hrun.
    cbv zeta in Hrun.
    destruct (audio_transcriptions_create ai filename audio) as [heard|];
      rewrite Hrun; clear Hrun; [|apply Hid].
    destruct (existsb _ (messages w)); [apply Hid|].
    destruct (chat_completions_create ai _) as [reply|]; [|apply Hid].
    destruct (existsb _ (messages w ++ [_])); [apply Hid|].
    destruct (audio_speech_create ai reply); apply Hid.
Qed.

Lemma NoDup_key_inj A (key : A -> string) (l : list A) (a b : A) :
  NoDup (map key l) -> In a l -> In b l -> key a = key b -> a = b.
Proof.
  induction l as [|x l IH]; simpl; intros Hnd Ha Hb Hk; [contradiction|].
  inversion Hnd as [|? ? Hx Hl]; subst.
  destruct Ha as [->|Ha], Hb as [->|Hb]; auto.
  - exfalso. apply Hx. rewrite Hk. now apply in_map.
  - exfalso. apply Hx. rewrite <- Hk. now apply in_map.
Qed.

(** A session row that is still there after a request is the row it was:
    no handler writes to a stored session. *)
Lemma step_keeps_session_rows w w' s s' :
  wf w -> step w w' ->
  In s (sessions w) -> In s' (sessions w') ->
  ChatSession.id s' = ChatSession.id s -> s' = s.
Proof.
  intros [_ [Hnd _]] Hstep Hs Hs' Hid.
  destruct (step_sessions Hstep) as [[f Heq]|[x [Heq Hx]]]; rewrite Heq in Hs'.
  - apply filter_In in Hs'. destruct Hs' as [Hs' _].
    now apply (NoDup_key_inj ChatSession.id (sessions w)).
  - apply in_app_or in Hs'. destruct Hs' as [Hs'|[<-|[]]].
    + now apply (NoDup_key_inj ChatSession.id (sessions w)).
    + exfalso.
      assert (existsb (fun y => ChatSession.id y =? ChatSession.id x) (sessions w) = true)
        as Ht; [|congruence].
      apply existsb_exists. exists s. split; [exact Hs|].
      apply String.eqb_eq. now symmetry.
Qed.

(** C7, with the count taken when the session is created: a session
    created for an existing agent without a title
    is stored with the title ["Chat n (h:mm:ss AM/PM)"], where [n] is one
    more than the number of sessions the agent has at that moment, [h] is
    the hour of the 12-hour clock written without padding, and minutes and
    seconds are two digits; an agent that has two sessions at that moment
    gets a title that starts with ["Chat 3 ("]; and no later request
    changes the row of a session that is still stored, hence not its
    title. *)
Theorem default_title_counts_existing_sessions agent_id payload t d w agent :
  get_agent agent_id w = (Ok agent, w) ->
  falsy payload = true ->
  ~ In (new_id d) (map ChatSession.id (sessions w)) ->
  let n := count_of agent_id w + 1 in
  let s := ChatSession.make (new_id d) agent_id (Some (default_title n t)) (now d) in
  create_session agent_id payload t d w = (Ok s, set_sessions (sessions w ++ [s]) w)
  /\ default_title n t =
     "Chat " ++ str_nat n ++ " (" ++ str_N (hour12 t) ++ ":" ++ pad2 (minute t) ++ ":"
       ++ pad2 (second t) ++ " " ++ am_pm t ++ ")"
  /\ (1 <= hour12 t <= 12)%N
  /\ (count_of agent_id w = 2 -> String.prefix "Chat 3 (" (default_title n t) = true)
  /\ (forall w1 w2 s1 s2,
        wf w1 -> step w1 w2 -> In s1 (sessions w1) -> In s2 (sessions w2) ->
        ChatSession.id s2 = ChatSession.id s1 ->
        ChatSession.title s2 = ChatSession.title s1).
Proof.
  intros Ha Hf Hfresh n s.
  split.
  { erewrite create_session_run by exact Ha. rewrite Hf.
    unfold add_session. simpl.
    now rewrite (existsb_session_fresh _ _ Hfresh). }
  split; [apply default_title_format|].
  split; [apply hour12_range|].
  split.
  { intros H2. subst n. rewrite H2, default_title_format.
    apply (prefix_append "Chat 3 ("). }
  intros w1 w2 s1 s2 Hw Hstep H1 H2 Hid.
  f_equal. eapply step_keeps_session_rows; eassumption.
Qed.

(** C10: a request whose title is the empty string is served exactly as a
    request without title, and the session it stores carries the generated
    title, which is not the empty string. *)
Theorem empty_title_is_defaulted agent_id t d w :
  create_session agent_id (Some "") t d w = create_session agent_id None t d w
  /\ forall s w',
       create_session agent_id (Some "") t d w = (Ok s, w') ->
       ChatSession.title s = Some (default_title (count_of agent_id w + 1) t)
       /\ ChatSession.title s <> Some ""
       /\ sessions w' = (sessions w ++ [s])%list.
Proof.
  split; [reflexivity|].
  intros s w'. unfold create_session, bind.
  destruct (get_agent agent_id w) as [[a|e] w1] eqn:Ha;
    apply get_agent_inv in Ha; destruct Ha as [-> _]; [|discriminate].
  unfold count_sessions, add_session, gets, ret. simpl.
  destruct (existsb _ (sessions w)); [discriminate|].
  intros H. inversion H; subst; clear H. simpl.
  split; [reflexivity|]. split; [|reflexivity].
  intros Hempty. inversion Hempty.
Qed.

(** ** Deleting an agent *)

Lemma get_agent_ok_id agent_id w agent :
  get_agent agent_id w = (Ok agent, w) ->
  In agent (agents w) /\ Agent.id agent = agent_id.
Proof.
  intros H. apply get_agent_inv in H. destruct H as [_ H].
  assert (In agent (filter (fun a => Agent.id a =? agent_id) (agents w))) as Hin
    by (rewrite H; now left).
  apply filter_In in Hin. destruct Hin as [Hin Hid].
  split; [exact Hin|now apply String.eqb_eq].
Qed.

Lemma delete_agent_run agent_id w w' :
  delete_agent agent_id w = (Ok tt, w') ->
  exists agent,
    get_agent agent_id w = (Ok agent, w) /\ w' = delete_agent_cascade agent w.
Proof.
  unfold delete_agent, get_agent, select_agent. unfold_monad.
  destruct (filter _ (agents w)) as [|a [|b l]]; intros H; inversion H; subst.
  now exists a.
Qed.

(** C8: deleting an agent removes its row, the rows of its sessions and
    the rows of their messages; afterwards the agent is not found, and none
    of its sessions is found, nor its messages listed, under any agent id;
    the rows of other agents, of their sessions and of the messages of
    those sessions stay as they are, and so do the audio files and the
    call log. *)
Theorem delete_agent_cascades agent_id w w' :
  wf w ->
  delete_agent agent_id w = (Ok tt, w') ->
  get_agent agent_id w' = (Raise (NotFound_agent agent_id), w')
  /\ (forall s, In s (sessions w) -> ChatSession.agent_id s = agent_id ->
        ~ In s (sessions w')
        /\ (forall m, In m (messages w) ->
              Message.session_id m = ChatSession.id s -> ~ In m (messages w'))
        /\ (forall b, exists e,
              get_session b (ChatSession.id s) w' = (Raise e, w')
              /\ (e = NotFound_agent b \/ e = NotFound_session (ChatSession.id s) b))
        /\ (forall E b, exists e,
              list_messages E b (ChatSession.id s) w' = (Raise e, w')
              /\ (e = NotFound_agent b \/ e = NotFound_session (ChatSession.id s) b)))
  /\ agents w' = filter (fun a => negb (Agent.id a =? agent_id)) (agents w)
  /\ sessions w' = filter (fun s => negb (owned_by agent_id s)) (sessions w)
  /\ (forall s, In s (sessions w) -> ChatSession.agent_id s <> agent_id ->
        forall m, In m (messages w) ->
          Message.session_id m = ChatSession.id s -> In m (messages w'))
  /\ (exists keep, messages w' = filter keep (messages w))
  /\ audio_files w' = audio_files w
  /\ calls w' = calls w.
Proof.
  intros Hw Hdel.
  destruct (@delete_agent_run agent_id w w' Hdel) as [agent [Hget ->]].
  destruct (@get_agent_ok_id agent_id w agent Hget) as [Hin Hid].
  assert (wf (delete_agent_cascade agent w)) as Hw'.
  { pose proof (@delete_agent_wf agent_id w Hw) as H. now rewrite Hdel in H. }
  destruct Hw as [Hna [Hns Hnm]].
  unfold delete_agent_cascade in *. simpl. rewrite Hid in *.
  set (w' := mkWorld _ _ _ _ _) in *.
  assert (forall s, In s (sessions w) -> ChatSession.agent_id s = agent_id ->
            forall b, not_a_session_of b (ChatSession.id s) w') as Hgone.
  { intros s Hs Hown b s' Hs' Hids _. simpl in Hs'.
    apply filter_In in Hs'. destruct Hs' as [Hs' Hkeep].
    assert (s' = s) as -> by now apply (NoDup_key_inj ChatSession.id (sessions w)).
    unfold owned_by in Hkeep. rewrite Hown, String.eqb_refl in Hkeep. discriminate. }
  split; [|split; [|repeat split]].
  - destruct (get_agent_wf_run agent_id Hw') as [[_ H]|[a [_ [Ha [Haid _]]]]];
      [exact H|].
    simpl in Ha. apply filter_In in Ha. destruct Ha as [_ Ha].
    rewrite Haid, String.eqb_refl in Ha. discriminate.
  - intros s Hs Hown. repeat split.
    + intros Hs'. apply filter_In in Hs'. destruct Hs' as [_ Hkeep].
      unfold owned_by in Hkeep. rewrite Hown, String.eqb_refl in Hkeep. discriminate.
    + intros m Hm Hsid Hm'. apply filter_In in Hm'. destruct Hm' as [_ Hkeep].
      apply negb_true_iff in Hkeep.
      assert (in_sessions (filter (owned_by agent_id) (sessions w)) m = true) as Ht;
        [|congruence].
      apply existsb_exists. exists s. split.
      * apply filter_In. split; [exact Hs|]. unfold owned_by.
        rewrite Hown. apply String.eqb_refl.
      * now apply String.eqb_eq.
    + intros b. eexists. split.
      * apply get_session_misses; [exact Hw'|now apply Hgone].
      * destruct (has_agent b w'); auto.
    + intros E b. eexists. split.
      * apply list_messages_misses; [exact Hw'|now apply Hgone].
      * destruct (has_agent b w'); auto.
  - intros s Hs Hother m Hm Hsid. apply filter_In. split; [exact Hm|].
    apply negb_true_iff.
    destruct (in_sessions _ m) eqn:Hex; [|reflexivity].
    apply existsb_exists in Hex. destruct Hex as [s' [Hs' Heq]].
    apply filter_In in Hs'. destruct Hs' as [Hs' Hown].
    apply String.eqb_eq in Heq. unfold owned_by in Hown. apply String.eqb_eq in Hown.
    assert (s' = s) as -> by (apply (NoDup_key_inj ChatSession.id (sessions w)); congruence).
    contradiction.
  - eexists. reflexivity.
Qed.

(** ** Updating an agent *)

Lemma replace_by_key (pre post : list Agent.t) (x x' : Agent.t) :
  NoDup (map Agent.id (pre ++ x :: post)) ->
  map (fun a => if Agent.id a =? Agent.id x then x' else a) (pre ++ x :: post)
  = (pre ++ x' :: post)%list.
Proof.
  intros Hnd.
  assert (forall l, (forall a, In a l -> Agent.id a <> Agent.id x) ->
            map (fun a => if Agent.id a =? Agent.id x then x' else a) l = l) as Hsame.
  { induction l as [|a l IH]; simpl; intros Hl; [reflexivity|].
    rewrite IH by auto.
    destruct (Agent.id a =? Agent.id x) eqn:Ha; [|reflexivity].
    apply String.eqb_eq in Ha. exfalso. now apply (Hl a (or_introl eq_refl)). }
  rewrite map_app in Hnd. simpl in Hnd.
  apply NoDup_remove_2 in Hnd.
  rewrite map_app. simpl. rewrite String.eqb_refl.
  rewrite !Hsame; [reflexivity| |].
  - intros a Ha Heq. apply Hnd. apply in_or_app. right.
    rewrite <- Heq. now apply in_map.
  - intros a Ha Heq. apply Hnd. apply in_or_app. left.
    rewrite <- Heq. now apply in_map.
Qed.

(** C9, at a body that carries [null]: [AgentUpdate] admits [null] for
    [name] and for [prompt], [model_dump(exclude_unset=True)] keeps it, and
    the commit of the row fails on the column constraint.  For an existing
    agent such a request ends in [IntegrityError] with the state as it was,
    so the agent read back afterwards is the stored one: no field of the
    body has been applied, the ones that carry a string included. *)
Theorem update_agent_null_field_discards_update agent_id payload t w agent :
  get_agent agent_id w = (Ok agent, w) ->
  sets_null payload = true ->
  update_agent agent_id payload t w = (Raise IntegrityError, w)
  /\ get_agent agent_id (snd (update_agent agent_id payload t w)) = (Ok agent, w).
Proof.
  intros Hget Hnull.
  assert (update_agent agent_id payload t w = (Raise IntegrityError, w)) as Hrun.
  { apply get_agent_inv in Hget. destruct Hget as [_ Hrows].
    unfold update_agent, select_agent, commit_agent, sets_null in *. unfold_monad.
    rewrite Hrows.
    destruct (update_name payload) as [[n|]|], (update_prompt payload) as [[p|]|];
      simpl in *; try discriminate Hnull; reflexivity. }
  split; [exact Hrun|]. rewrite Hrun. exact Hget.
Qed.

(** X20: for an existing agent and a body whose present fields carry
    strings, [update_agent] sets [name] and [prompt] to the strings present
    in the body and keeps the stored value of a field that is absent; the
    row keeps its id, its [created_at] and its place in the table, every
    other agent row and the session and message tables are as before.  A
    body that carries [null] for a field is refused by the column
    constraint and changes nothing. *)
Theorem update_agent_touches_given_fields agent_id payload t w agent :
  wf w ->
  get_agent agent_id w = (Ok agent, w) ->
  (sets_null payload = true ->
   update_agent agent_id payload t w = (Raise IntegrityError, w))
  /\ (sets_null payload = false ->
      exists agent' pre post,
        agents w = (pre ++ agent :: post)%list /\
        update_agent agent_id payload t w =
          (Ok agent',
           mkWorld (pre ++ agent' :: post) (sessions w) (messages w)
                   (audio_files w) (calls w)) /\
        Agent.id agent' = Agent.id agent /\
        Agent.created_at agent' = Agent.created_at agent /\
        Agent.name agent' = requested (Agent.name agent) (update_name payload) /\
        Agent.prompt agent' = requested (Agent.prompt agent) (update_prompt payload) /\
        (update_name payload = None -> Agent.name agent' = Agent.name agent) /\
        (update_prompt payload = None -> Agent.prompt agent' = Agent.prompt agent)).
Proof.
  intros [Hnd _] Hget.
  destruct (@get_agent_ok_id agent_id w agent Hget) as [Hin Hid].
  apply get_agent_inv in Hget. destruct Hget as [_ Hrows].
  unfold update_agent, select_agent, commit_agent, sets_null. unfold_monad.
  rewrite Hrows.
  destruct (in_split _ _ Hin) as [pre [post Hsplit]].
  split.
  - destruct (update_name payload) as [[n|]|], (update_prompt payload) as [[p|]|];
      simpl; intros H; try discriminate H; reflexivity.
  - intros Hnull. rewrite Hsplit in Hnd.
    assert (forall x',
      map (fun a => if Agent.id a =? Agent.id agent then x' else a) (agents w)
      = (pre ++ x' :: post)%list) as Hmap.
    { intros x'. rewrite Hsplit. now apply replace_by_key. }
    destruct (update_name payload) as [[n|]|], (update_prompt payload) as [[p|]|];
      simpl in *; try discriminate Hnull;
      eexists; exists pre, post; rewrite Hmap;
      (split; [exact Hsplit|]); (split; [reflexivity|]); simpl;
      repeat split; auto; discriminate.
Qed.

(** ** The scenario of the test suite *)

Lemma w_session_reachable : reachable w_session.
Proof.
  apply reachable_step with w_agent; [|apply step_create_session].
  apply reachable_step with empty_world; [constructor|apply step_create_agent].
Defined.

Lemma w_two_agents_reachable : reachable w_two_agents.
Proof.
  apply reachable_step with w_session; [|apply step_create_agent].
  exact w_session_reachable.
Defined.

Lemma w_chatted_reachable : reachable w_chatted.
Proof.
  apply reachable_step with w_session;
    [|apply step_send_message, stable_engine_lawful].
  exact w_session_reachable.
Defined.

Lemma w_voice_reachable : reachable w_voice.
Proof.
  apply reachable_step with w_session;
    [|apply step_voice_interaction, stable_engine_lawful].
  exact w_session_reachable.
Defined.

(** C1 on the scenario: the two rows of [test_send_message]. *)
Lemma send_message_persists_pair_witness :
  send_message mock_ai stable_engine "agent-1" "session-1" "Hi there"
               d_user d_assistant w_session = (Ok (um1, am1), w_chatted)
  /\ messages w_chatted = (messages w_session ++ [um1; am1])%list.
Proof.
  assert (send_message mock_ai stable_engine "agent-1" "session-1" "Hi there"
            d_user d_assistant w_session = (Ok (um1, am1), w_chatted)) as Hrun
    by reflexivity.
  split; [exact Hrun|].
  destruct (send_message_persists_pair _ _ _ _ _ _ _ _ Hrun)
    as [agent [text [_ [_ [_ [_ [Hm _]]]]]]].
  exact Hm.
Defined.

Ltac rows_in_order :=
  repeat (constructor; try (unfold created_at_le; cbn; lia)).

(** C2 on the scenario: a second text message, and a voice message, in the
    session that has had one exchange.  The chat completion gets the system
    entry, the two rows of the first exchange, and the new user row. *)
Lemma chat_receives_system_then_history_witness :
  let earlier :=
    [chat_entry "system" "You are a test agent.";
     chat_entry "user" "Hi there";
     chat_entry "assistant" "Hello! How can I help you?"] in
  calls (snd (send_message mock_ai stable_engine "agent-1" "session-1" "And then?"
                d_user2 d_assistant2 w_chatted))
  = (calls w_chatted
     ++ [ChatCall (earlier ++ [chat_entry "user" "And then?"])
                  (Some "Hello! How can I help you?")])%list
  /\
  exists tts,
    calls (snd (voice_interaction mock_ai stable_engine "agent-1" "session-1"
                  (Some "recording.webm") "audio" d_user2 d_assistant2
                  "0123456789abcdef0123456789abcdef" w_chatted))
    = (calls w_chatted
       ++ TranscriptionCall (Some "recording.webm") "audio" (Some "Hello voice")
          :: ChatCall (earlier ++ [chat_entry "user" "Hello voice"])
                      (Some "Hello! How can I help you?")
          :: tts)%list.
Proof.
  assert (~ In (new_id d_user2) (map Message.id (messages w_chatted))) as Hfresh.
  { simpl. intros [H|[H|[]]]; discriminate. }
  destruct (@chat_receives_system_then_history mock_ai "agent-1" "session-1"
              d_user2 d_assistant2 w_chatted test_agent eq_refl Hfresh) as [Htext Hvoice].
  cbv zeta. split.
  - destruct (Htext "And then?") as [history [_ [_ [Hsame Hcalls]]]].
    assert (history
            = (session_rows "session-1" (messages w_chatted)
               ++ [Message.make (new_id d_user2) "session-1" "user" "And then?" None
                                (now d_user2)])%list) as Hh
      by (apply Hsame; rows_in_order).
    subst history. exact Hcalls.
  - destruct (Hvoice (Some "recording.webm") "audio"
                     "0123456789abcdef0123456789abcdef" "Hello voice" eq_refl)
      as [history [tts [_ [_ [Hsame [Hcalls _]]]]]].
    assert (history
            = (session_rows "session-1" (messages w_chatted)
               ++ [Message.make (new_id d_user2) "session-1" "user" "Hello voice" None
                                (now d_user2)])%list) as Hh
      by (apply Hsame; rows_in_order).
    subst history. exists tts. exact Hcalls.
Defined.

(** C3 on the scenario: the provider is down for chat completions. *)
Lemma chat_failure_keeps_user_message_witness :
  send_message chat_down stable_engine "agent-1" "session-1" "Hi there"
               d_user d_assistant w_session =
  (Raise (UpstreamError Chat),
   mkWorld (agents w_session) (sessions w_session) (messages w_session ++ [um1])
           (audio_files w_session)
           (calls w_session
            ++ [ChatCall (full_messages_of stable_engine test_agent "session-1"
                            (messages w_session ++ [um1])) None])).
Proof.
  apply (@chat_failure_keeps_user_message chat_down stable_engine "agent-1"
           "session-1" "Hi there" d_user d_assistant w_session test_agent).
  - reflexivity.
  - simpl. intros H. exact H.
  - reflexivity.
Defined.

(** C4 on the scenario: the state after [test_voice_interaction], and the
    same request with the speech synthesis down. *)
Lemma audio_url_only_after_speech_witness :
  reachable w_voice
  /\ audio_inv w_voice
  /\ exists um am,
       messages (snd (voice_interaction speech_down stable_engine "agent-1" "session-1"
                        (Some "recording.webm") "audio"
                        (defaults "message-3" 5000000%N)
                        (defaults "message-4" 6000000%N) "ff" w_voice))
       = (messages w_voice ++ [um; am])%list
       /\ Message.audio_url um = None /\ Message.audio_url am = None.
Proof.
  split; [exact w_voice_reachable|].
  destruct (audio_url_only_after_speech w_voice_reachable) as [Hinv [Hfail _]].
  split; [exact Hinv|].
  destruct (Hfail speech_down stable_engine "agent-1" "session-1"
              (Some "recording.webm") "audio" (defaults "message-3" 5000000%N)
              (defaults "message-4" 6000000%N) "ff" _ eq_refl)
    as [um [am [Hm [_ [Hu [_ [Ha _]]]]]]].
  exists um, am. auto.
Defined.

(** C5 does not extend to an unknown agent: for the session of [agent-1]
    asked under an agent id that names no agent, the four handlers answer
    with the agent 404, not the session 404. *)
Lemma unknown_agent_is_reported_first :
  let ghost := "00000000-0000-0000-0000-000000000000" in
  not_a_session_of ghost "session-1" w_session
  /\ get_session ghost "session-1" w_session = (Raise (NotFound_agent ghost), w_session)
  /\ list_messages stable_engine ghost "session-1" w_session
     = (Raise (NotFound_agent ghost), w_session)
  /\ send_message mock_ai stable_engine ghost "session-1" "Hello" d_user d_assistant
                  w_session
     = (Raise (NotFound_agent ghost), w_session)
  /\ voice_interaction mock_ai stable_engine ghost "session-1" (Some "recording.webm")
                       "audio" d_user d_assistant "ff" w_session
     = (Raise (NotFound_agent ghost), w_session)
  /\ NotFound_agent ghost <> NotFound_session "session-1" ghost.
Proof.
  cbv zeta. split.
  { intros s [<-|[]] _. simpl. discriminate. }
  repeat split; try reflexivity.
  unfold NotFound_agent, NotFound_session. simpl. discriminate.
Qed.

(** C5 on the scenario: the session of [agent-1] asked under
    [agent-2]. *)
Lemma session_lookup_is_scoped_to_agent_witness :
  get_session "agent-2" "session-1" w_two_agents
  = (Raise (NotFound_session "session-1" "agent-2"), w_two_agents)
  /\ forall text,
       send_message mock_ai stable_engine "agent-2" "session-1" text d_user d_assistant
                    w_two_agents
       = (Raise (NotFound_session "session-1" "agent-2"), w_two_agents).
Proof.
  assert (not_a_session_of "agent-2" "session-1" w_two_agents) as Hno.
  { intros s [<-|[]] _. simpl. discriminate. }
  destruct (session_lookup_is_scoped_to_agent (reachable_wf w_two_agents_reachable) Hno)
    as [Hsend [_ [_ Hget]]].
  split; [exact Hget|].
  intros text. apply Hsend.
Defined.

(** C6 on the scenario: the two rows of an exchange carry the same
    [created_at], and are listed user row first, as stored. *)
Lemma list_messages_in_creation_order_witness :
  messages w_same_instant = [um_instant; am_instant]
  /\ Message.created_at um_instant = Message.created_at am_instant
  /\ list_messages stable_engine "agent-1" "session-1" w_same_instant
     = (Ok [um_instant; am_instant], w_same_instant).
Proof.
  split; [reflexivity|]. split; [reflexivity|].
  destruct (@list_messages_in_creation_order "agent-1" "session-1" w_same_instant
              test_agent eq_refl)
    as [l [Hrun [_ [Hsame _]]]].
  rewrite Hrun. f_equal. f_equal. apply Hsame. rows_in_order.
Defined.

(** C7 does not hold after a deletion: two sessions are created under the
    agent, the first is deleted, and the third session created gets the
    number 2. *)
Lemma third_session_created_may_be_chat_2 :
  let w1 := snd (create_session "agent-1" None 2000000%N
                                (defaults "session-1" 2000000%N) w_agent) in
  let w2 := snd (create_session "agent-1" None 3000000%N
                                (defaults "session-2" 3000000%N) w1) in
  let w3 := snd (delete_session "agent-1" "session-1" w2) in
  let third := ChatSession.make "session-3" "agent-1" (Some "Chat 2 (1:05:07 PM)")
                                t_afternoon in
  map ChatSession.title (sessions w2)
    = [Some "Chat 1 (12:00:02 AM)"; Some "Chat 2 (12:00:03 AM)"]
  /\ fst (delete_session "agent-1" "session-1" w2) = Ok tt
  /\ create_session "agent-1" None t_afternoon (defaults "session-3" t_afternoon) w3
     = (Ok third, set_sessions (sessions w3 ++ [third]) w3)
  /\ String.prefix "Chat 3 (" "Chat 2 (1:05:07 PM)" = false.
Proof.
  cbv zeta. repeat split.
Qed.

(** C7 on the scenario: the agent has two sessions and a third is created
    without title. *)
Lemma default_title_counts_existing_sessions_witness :
  let third := ChatSession.make "session-3" "agent-1" (Some "Chat 3 (1:05:07 PM)")
                                t_afternoon in
  create_session "agent-1" None t_afternoon (defaults "session-3" t_afternoon)
                 w_two_sessions
  = (Ok third, set_sessions (sessions w_two_sessions ++ [third]) w_two_sessions).
Proof.
  cbv zeta.
  refine (proj1 (@default_title_counts_existing_sessions "agent-1" None t_afternoon
                   (defaults "session-3" t_afternoon) w_two_sessions test_agent
                   eq_refl eq_refl _)).
  simpl. intros [H|[H|[]]]; discriminate H.
Defined.

(** C8 on the scenario: the agent is deleted after one exchange. *)
Lemma delete_agent_cascades_witness :
  let w' := snd (delete_agent "agent-1" w_chatted) in
  get_agent "agent-1" w' = (Raise (NotFound_agent "agent-1"), w')
  /\ sessions w' = [] /\ messages w' = [].
Proof.
  cbv zeta.
  split; [|split; reflexivity].
  exact (proj1 (@delete_agent_cascades "agent-1" w_chatted _
                  (reachable_wf w_chatted_reachable) eq_refl)).
Defined.

(** C9 on the scenario: the body [{"name": null, "prompt": "Changed"}] for
    the agent of the test suite.  The prompt stays as it was. *)
Lemma update_agent_null_field_discards_update_witness :
  let body := {| update_name := Some None; update_prompt := Some (Some "Changed") |} in
  update_agent "agent-1" body 9000000%N w_session = (Raise IntegrityError, w_session)
  /\ get_agent "agent-1" (snd (update_agent "agent-1" body 9000000%N w_session))
     = (Ok test_agent, w_session)
  /\ Agent.prompt test_agent = "You are a test agent.".
Proof.
  cbv zeta.
  destruct (@update_agent_null_field_discards_update "agent-1"
              {| update_name := Some None; update_prompt := Some (Some "Changed") |}
              9000000%N w_session test_agent eq_refl eq_refl) as [Hrun Hget].
  split; [exact Hrun|]. split; [exact Hget|reflexivity].
Defined.

(** X20 on the scenario: [test_update_agent_partial]. *)
Lemma update_agent_touches_given_fields_witness :
  exists agent',
    fst (update_agent "agent-1"
           {| update_name := Some (Some "New Name Only"); update_prompt := None |}
           9000000%N w_session) = Ok agent'
    /\ Agent.name agent' = "New Name Only"
    /\ Agent.prompt agent' = "You are a test agent.".
Proof.
  destruct (proj2 (@update_agent_touches_given_fields "agent-1"
                     {| update_name := Some (Some "New Name Only"); update_prompt := None |}
                     9000000%N w_session test_agent
                     (reachable_wf w_session_reachable) eq_refl) eq_refl)
    as [agent' [pre [post [_ [Hrun [_ [_ [Hname [Hprompt _]]]]]]]]].
  exists agent'. rewrite Hrun. auto.
Defined.

(** C10 on the scenario: [{"title": ""}] for the first session of the
    agent. *)
Lemma empty_title_is_defaulted_witness :
  exists s w',
    create_session "agent-1" (Some "") t_afternoon (defaults "session-1" 2000000%N) w_agent
    = (Ok s, w')
    /\ ChatSession.title s = Some "Chat 1 (1:05:07 PM)".
Proof.
  eexists. eexists. split; [reflexivity|].
  exact (proj1 (proj2 (empty_title_is_defaulted "agent-1" t_afternoon
                         (defaults "session-1" 2000000%N) w_agent) _ _ eq_refl)).
Defined.


(** * Further properties of the handlers *)

(** ** What one request does to the tables *)

Lemma default_title_not_empty n t : default_title n t <> "".
Proof. unfold default_title. simpl. discriminate. Qed.

Lemma falsy_false_titled payload :
  falsy payload = false -> exists t, payload = Some t /\ t <> "".
Proof.
  destruct payload as [t|]; simpl; [|discriminate].
  intros H. exists t. split; [reflexivity|]. now apply String.eqb_neq.
Qed.

Lemma resolved_ok agent_id session_id w agent :
  resolved agent_id session_id w = Ok agent ->
  get_agent agent_id w = (Ok agent, w)
  /\ exists s, _get_session_or_404 session_id agent_id w = (Ok s, w)
               /\ In s (sessions w) /\ ChatSession.id s = session_id
               /\ ChatSession.agent_id s = agent_id.
Proof.
  unfold resolved.
  destruct (get_agent agent_id w) as [[a|e] w1] eqn:Ha; [|discriminate].
  apply get_agent_inv in Ha as Ha'. destruct Ha' as [-> _].
  destruct (_get_session_or_404 session_id agent_id w) as [[s|e] w1] eqn:Hs;
    [|discriminate].
  apply get_session_or_404_inv in Hs as Hs'. destruct Hs' as [-> Hrows].
  intros H. inversion H; subst. split; [reflexivity|].
  exists s. split; [reflexivity|].
  assert (In s (filter (fun s => (ChatSession.id s =? session_id) && owned_by agent_id s)
                       (sessions w))) as Hin by (rewrite Hrows; now left).
  apply filter_In in Hin. destruct Hin as [Hin Hb].
  apply andb_true_iff in Hb. destruct Hb as [Hid Hown].
  split; [exact Hin|]. split; now apply String.eqb_eq.
Qed.

Ltac rows_added s l :=
  eapply (@effect_add_messages _ _ _ l);
  [ exists s; split; eassumption
  | repeat first [apply Forall_nil | apply Forall_cons];
    (split; [reflexivity|]); first [now left | now right]
  | reflexivity
  | reflexivity
  | simpl; rewrite <- ?app_assoc; reflexivity ].

Lemma send_message_effect ai E agent_id session_id text du da w :
  table_effect w (snd (send_message ai E agent_id session_id text du da w)).
Proof.
  rewrite send_message_lookup.
  destruct (resolved agent_id session_id w) as [agent|e] eqn:Hr;
    [|now apply effect_none].
  apply resolved_ok in Hr. destruct Hr as [_ [s [_ [Hin [Hid _]]]]].
  rewrite send_message_body_run.
  destruct (existsb _ (messages w)); [now apply effect_none|].
  destruct (chat_completions_create ai _) as [reply|]; simpl.
  - destruct (existsb _ (messages w ++ [_])); simpl.
    + rows_added s [Message.make (new_id du) session_id "user" text None (now du)].
    + rows_added s [Message.make (new_id du) session_id "user" text None (now du);
                    Message.make (new_id da) session_id "assistant" reply None (now da)].
  - rows_added s [Message.make (new_id du) session_id "user" text None (now du)].
Qed.

Lemma voice_interaction_effect ai E agent_id session_id filename audio du da hex w :
  table_effect w
    (snd (voice_interaction ai E agent_id session_id filename audio du da hex w)).
Proof.
  rewrite voice_interaction_lookup.
  destruct (resolved agent_id session_id w) as [agent|e] eqn:Hr;
    [|now apply effect_none].
  apply resolved_ok in Hr. destruct Hr as [_ [s [_ [Hin [Hid _]]]]].
  pose proof (voice_interaction_body_run ai E agent session_id filename audio
                du da hex w) as Hrun.
  cbv zeta in Hrun.
  destruct (audio_transcriptions_create ai filename audio) as [heard|];
    rewrite Hrun; clear Hrun; [|now apply effect_none].
  destruct (existsb _ (messages w)); [now apply effect_none|].
  destruct (chat_completions_create ai _) as [reply|]; simpl.
  2:{ rows_added s [Message.make (new_id du) session_id "user" heard None (now du)]. }
  destruct (existsb _ (messages w ++ [_])); simpl.
  { rows_added s [Message.make (new_id du) session_id "user" heard None (now du)]. }
  destruct (audio_speech_create ai reply) as [data|]; simpl.
  - eapply (@effect_voice _ _ session_id
              [Message.make (new_id du) session_id "user" heard None (now du);
               Message.make (new_id da) session_id "assistant" reply None (now da)]
              (new_id da)
              (Message.with_audio_url (Some ("/api/audio/" ++ hex ++ ".mp3"))
                 (Message.make (new_id da) session_id "assistant" reply None (now da)))).
    + exists s. split; eassumption.
    + repeat first [apply Forall_nil | apply Forall_cons];
        (split; [reflexivity|]); first [now left | now right].
    + split; [reflexivity|now right].
    + reflexivity.
    + reflexivity.
    + simpl. rewrite <- app_assoc. reflexivity.
  - rows_added s [Message.make (new_id du) session_id "user" heard None (now du);
                  Message.make (new_id da) session_id "assistant" reply None (now da)].
Qed.

Lemma step_table_effect w w' : step w w' -> table_effect w w'.
Proof.
  intros Hstep. destruct Hstep.
  - unfold create_agent, add_agent.
    destruct (existsb _ (agents w)); simpl; [now apply effect_none|].
    now eapply effect_add_agent.
  - rewrite get_agent_snd. now apply effect_none.
  - destruct (update_agent_tables agent_id payload t w) as [Ea [Es [Em _]]].
    now apply effect_update_agent.
  - unfold delete_agent, select_agent. unfold_monad.
    destruct (filter _ (agents w)) as [|a [|b l]] eqn:Hrows; simpl;
      try now apply effect_none.
    assert (Agent.id a = agent_id) as Hid.
    { assert (In a (filter (fun a => Agent.id a =? agent_id) (agents w))) as Hin
        by (rewrite Hrows; now left).
      apply filter_In in Hin. now apply String.eqb_eq. }
    apply effect_delete_agent with agent_id; simpl; now rewrite Hid.
  - unfold create_session, bind.
    destruct (get_agent agent_id w) as [[a|e] w1] eqn:Ha;
      apply get_agent_inv in Ha; destruct Ha as [-> Hrows]; [|now apply effect_none].
    assert (has_agent agent_id w = true) as Hknown
      by (eapply filter_cons_existsb; exact Hrows).
    unfold count_sessions, add_session, gets, ret.
    destruct (falsy payload) eqn:Hf; simpl;
      (destruct (existsb _ (sessions w)); simpl; [now apply effect_none|]).
    + eapply effect_add_session; try reflexivity; [exact Hknown|].
      eexists. split; [reflexivity|apply default_title_not_empty].
    + eapply effect_add_session; try reflexivity; [exact Hknown|].
      now apply falsy_false_titled.
  - rewrite get_session_snd. now apply effect_none.
  - unfold delete_session, bind.
    destruct (_get_session_or_404 session_id agent_id w) as [[s|e] w1] eqn:Hs;
      apply get_session_or_404_inv in Hs; destruct Hs as [-> _]; simpl;
      [|now apply effect_none].
    now apply effect_delete_session with (ChatSession.id s).
  - apply send_message_effect.
  - rewrite list_messages_snd. now apply effect_none.
  - apply voice_interaction_effect.
Qed.

(** ** Invariants of the reachable states *)

Lemma effect_roles w w' :
  Forall role_ok (messages w) -> table_effect w w' -> Forall role_ok (messages w').
Proof.
  intros Hm Heff.
  destruct Heff as [Ea Es Em|a Ea Es Em|Ea Es Em|agent_id Ea Es Em|s Hk Ht Ea Es Em
                    |sid Ea Es Em|sid added Hex Hrows Ea Es Em
                    |sid added k am' Hex Hrows Ham Ea Es Em];
    rewrite Em; auto using Forall_filter_keep.
  - apply Forall_app. split; [exact Hm|].
    eapply Forall_impl; [|exact Hrows]. now intros m [_ H].
  - apply Forall_replace; [now destruct Ham|].
    apply Forall_app. split; [exact Hm|].
    eapply Forall_impl; [|exact Hrows]. now intros m [_ H].
Qed.

Lemma effect_titled w w' :
  Forall titled (sessions w) -> table_effect w w' -> Forall titled (sessions w').
Proof.
  intros Hs Heff.
  destruct Heff as [Ea Es Em|a Ea Es Em|Ea Es Em|agent_id Ea Es Em|s Hk Ht Ea Es Em
                    |sid Ea Es Em|sid added Hex Hrows Ea Es Em
                    |sid added k am' Hex Hrows Ham Ea Es Em];
    rewrite Es; auto using Forall_filter_keep.
  apply Forall_app. split; [exact Hs|now constructor].
Qed.

(** X1: in every state reachable from the empty database, the ids of the
    agents are pairwise distinct, and so are the ids of the sessions and
    the ids of the messages. *)
Theorem reachable_keys_unique w :
  reachable w ->
  NoDup (map Agent.id (agents w))
  /\ NoDup (map ChatSession.id (sessions w))
  /\ NoDup (map Message.id (messages w)).
Proof. intros H. exact (reachable_wf H). Qed.

(** X3: in every reachable state the role of every stored message is
    [user] or [assistant]. *)
Theorem reachable_roles w :
  reachable w ->
  forall m, In m (messages w) ->
    Message.role m = "user" \/ Message.role m = "assistant".
Proof.
  intros H. apply Forall_forall.
  induction H as [|w w' _ IH Hstep]; [constructor|].
  eapply effect_roles; [exact IH|now apply step_table_effect].
Qed.

(** X4: in every reachable state every stored session has a title, and
    the title is not the empty string, although the column is nullable. *)
Theorem reachable_sessions_titled w :
  reachable w ->
  forall s, In s (sessions w) ->
    exists t, ChatSession.title s = Some t /\ t <> "".
Proof.
  intros H. apply Forall_forall.
  induction H as [|w w' _ IH Hstep]; [constructor|].
  eapply effect_titled; [exact IH|now apply step_table_effect].
Qed.

(** ** Deleting a session *)

Lemma delete_session_run agent_id session_id w w' :
  delete_session agent_id session_id w = (Ok tt, w') ->
  exists s,
    In s (sessions w) /\ ChatSession.id s = session_id
    /\ ChatSession.agent_id s = agent_id
    /\ w' = mkWorld (agents w)
              (filter (fun x => negb (ChatSession.id x =? session_id)) (sessions w))
              (filter (fun m => negb (Message.session_id m =? session_id)) (messages w))
              (audio_files w) (calls w).
Proof.
  unfold delete_session, bind.
  destruct (_get_session_or_404 session_id agent_id w) as [[s|e] w1] eqn:Hs;
    [|discriminate].
  apply get_session_or_404_inv in Hs. destruct Hs as [-> Hrows].
  assert (In s (filter (fun s => (ChatSession.id s =? session_id) && owned_by agent_id s)
                       (sessions w))) as Hin by (rewrite Hrows; now left).
  apply filter_In in Hin. destruct Hin as [Hin Hb].
  apply andb_true_iff in Hb. destruct Hb as [Hid Hown].
  apply String.eqb_eq in Hid. apply String.eqb_eq in Hown.
  unfold modify. intros H. inversion H; subst; clear H.
  exists s. repeat split; auto.
Qed.

Lemma no_row_after_filter session_id (l : list ChatSession.t) b w :
  sessions w = filter (fun x => negb (ChatSession.id x =? session_id)) l ->
  not_a_session_of b session_id w.
Proof.
  intros Hs s Hin Hid _. rewrite Hs in Hin.
  apply filter_In in Hin. destruct Hin as [_ Hkeep].
  rewrite Hid, String.eqb_refl in Hkeep. discriminate.
Qed.

(** X5: deleting a session of the agent removes the session row and the
    rows of its messages and nothing else; afterwards the session is not
    found and its messages are not listed under any agent id, and deleting
    it again is a 404. *)
Theorem delete_session_cascades agent_id session_id w w' :
  wf w ->
  delete_session agent_id session_id w = (Ok tt, w') ->
  (exists s, In s (sessions w) /\ ChatSession.id s = session_id
             /\ ChatSession.agent_id s = agent_id)
  /\ agents w' = agents w
  /\ sessions w' = filter (fun x => negb (ChatSession.id x =? session_id)) (sessions w)
  /\ messages w' = filter (fun m => negb (Message.session_id m =? session_id))
                          (messages w)
  /\ audio_files w' = audio_files w /\ calls w' = calls w
  /\ (forall b, exists e,
        get_session b session_id w' = (Raise e, w')
        /\ (e = NotFound_agent b \/ e = NotFound_session session_id b))
  /\ (forall E b, exists e,
        list_messages E b session_id w' = (Raise e, w')
        /\ (e = NotFound_agent b \/ e = NotFound_session session_id b))
  /\ delete_session agent_id session_id w'
     = (Raise (NotFound_session session_id agent_id), w').
Proof.
  intros Hw Hdel.
  assert (wf w') as Hw'.
  { pose proof (@delete_session_wf agent_id session_id w Hw) as H.
    now rewrite Hdel in H. }
  destruct (delete_session_run _ _ _ Hdel) as [s [Hin [Hid [Hown ->]]]].
  set (w' := mkWorld _ _ _ _ _) in *.
  assert (forall b, not_a_session_of b session_id w') as Hgone.
  { intros b. now apply (@no_row_after_filter session_id (sessions w)). }
  split; [now exists s|].
  repeat split.
  - intros b. eexists. split.
    + apply get_session_misses; [exact Hw'|apply Hgone].
    + destruct (has_agent b w'); auto.
  - intros E b. eexists. split.
    + apply list_messages_misses; [exact Hw'|apply Hgone].
    + destruct (has_agent b w'); auto.
  - unfold delete_session, bind. now rewrite session_lookup_misses.
Qed.

(** X6: [delete_session] looks the session up under the agent of the path
    and does not look the agent up: when the session id is unknown or
    belongs to another agent it raises the session 404, whether the agent
    exists or not, and deletes nothing. *)
Theorem delete_session_misses agent_id session_id w :
  not_a_session_of agent_id session_id w ->
  delete_session agent_id session_id w
  = (Raise (NotFound_session session_id agent_id), w).
Proof.
  intros Hno. unfold delete_session, bind. now rewrite session_lookup_misses.
Qed.

(** ** Creating and reading back *)

Lemma filter_id_none (l : list Agent.t) (i : string) :
  ~ In i (map Agent.id l) -> filter (fun a => Agent.id a =? i) l = [].
Proof.
  intros H. apply filter_none. intros a Ha. apply String.eqb_neq.
  intros Heq. apply H. rewrite <- Heq. now apply in_map.
Qed.

Lemma existsb_agent_fresh (l : list Agent.t) (i : string) :
  ~ In i (map Agent.id l) -> existsb (fun a => Agent.id a =? i) l = false.
Proof.
  intros H. apply filter_nil_existsb. now apply filter_id_none.
Qed.

(** X7: creating an agent under an id that is not taken stores a row with
    the name and the prompt of the request; [get_agent] on the new id
    returns that row, and on every other id it answers as before. *)
Theorem create_agent_then_get payload d updated w :
  ~ In (new_id d) (map Agent.id (agents w)) ->
  let a := Agent.make (new_id d) (create_name payload) (create_prompt payload)
                      (now d) updated in
  let w' := set_agents (agents w ++ [a]) w in
  create_agent payload d updated w = (Ok a, w')
  /\ get_agent (new_id d) w' = (Ok a, w')
  /\ forall b, b <> new_id d -> fst (get_agent b w') = fst (get_agent b w).
Proof.
  intros Hfresh a w'. split; [|split].
  - unfold create_agent, add_agent. simpl.
    now rewrite (existsb_agent_fresh _ _ Hfresh).
  - unfold get_agent, select_agent. unfold_monad. simpl.
    rewrite filter_app, (filter_id_none _ _ Hfresh). simpl.
    now rewrite String.eqb_refl.
  - intros b Hb. unfold get_agent, select_agent. unfold_monad. simpl.
    rewrite filter_app. simpl.
    assert ((new_id d =? b) = false) as -> by (apply String.eqb_neq; congruence).
    rewrite app_nil_r.
    destruct (filter _ (agents w)) as [|x [|y l]]; reflexivity.
Qed.

(** X8: creating a session with a non-empty title under an existing agent
    and an id that is not taken stores exactly that title, and
    [get_session] under the same agent returns the stored row. *)
Theorem create_session_then_get agent_id title t d w agent :
  get_agent agent_id w = (Ok agent, w) ->
  title <> "" ->
  ~ In (new_id d) (map ChatSession.id (sessions w)) ->
  let s := ChatSession.make (new_id d) agent_id (Some title) (now d) in
  let w' := set_sessions (sessions w ++ [s]) w in
  create_session agent_id (Some title) t d w = (Ok s, w')
  /\ get_session agent_id (new_id d) w' = (Ok s, w').
Proof.
  intros Ha Ht Hfresh s w'.
  assert (falsy (Some title) = false) as Hf by (simpl; now apply String.eqb_neq).
  split.
  - erewrite create_session_run by exact Ha. rewrite Hf.
    unfold add_session. simpl.
    now rewrite (existsb_session_fresh _ _ Hfresh).
  - apply get_agent_inv in Ha. destruct Ha as [_ Hrows].
    unfold get_session, get_agent, _get_session_or_404, select_agent, select_session.
    unfold_monad. simpl. rewrite Hrows. simpl.
    rewrite filter_app. simpl. unfold owned_by at 2. simpl.
    rewrite !String.eqb_refl. simpl.
    rewrite filter_none; [reflexivity|].
    intros x Hx. apply andb_false_iff. left. apply String.eqb_neq.
    intros Heq. apply Hfresh. rewrite <- Heq. now apply in_map.
Qed.

(** X9: for an agent id that names no agent, [get_agent], [update_agent],
    [delete_agent], [create_session] and [list_sessions] raise the agent
    404 and leave the state as it was. *)
Theorem unknown_agent_is_not_found agent_id w :
  has_agent agent_id w = false ->
  get_agent agent_id w = (Raise (NotFound_agent agent_id), w)
  /\ (forall payload t,
        update_agent agent_id payload t w = (Raise (NotFound_agent agent_id), w))
  /\ delete_agent agent_id w = (Raise (NotFound_agent agent_id), w)
  /\ (forall payload t d,
        create_session agent_id payload t d w = (Raise (NotFound_agent agent_id), w))
  /\ (forall L, list_sessions L agent_id w = (Raise (NotFound_agent agent_id), w)).
Proof.
  intros Hno.
  assert (filter (fun a => Agent.id a =? agent_id) (agents w) = []) as Hrows.
  { apply filter_none. intros a Ha.
    destruct (Agent.id a =? agent_id) eqn:Hid; [|reflexivity].
    unfold has_agent in Hno.
    assert (existsb (fun a => Agent.id a =? agent_id) (agents w) = true) as Ht
      by (apply existsb_exists; now exists a).
    congruence. }
  assert (get_agent agent_id w = (Raise (NotFound_agent agent_id), w)) as Hget.
  { unfold get_agent, select_agent. unfold_monad. now rewrite Hrows. }
  repeat split; intros.
  - exact Hget.
  - unfold update_agent, select_agent. unfold_monad. now rewrite Hrows.
  - unfold delete_agent, select_agent. unfold_monad. now rewrite Hrows.
  - unfold create_session, bind. now rewrite Hget.
  - unfold list_sessions, bind. now rewrite Hget.
Qed.

(** ** Sending and listing *)

Lemma resolved_tables agent_id session_id w w' :
  agents w' = agents w -> sessions w' = sessions w ->
  resolved agent_id session_id w' = resolved agent_id session_id w.
Proof.
  intros Ea Es.
  unfold resolved, get_agent, _get_session_or_404, select_agent, select_session.
  unfold_monad. rewrite Ea, Es.
  destruct (filter _ (agents w)) as [|a [|b l]]; try reflexivity.
  destruct (filter _ (sessions w)) as [|s [|s' l]]; reflexivity.
Qed.

Lemma send_message_ok ai E agent_id session_id text du da w um am w' :
  send_message ai E agent_id session_id text du da w = (Ok (um, am), w') ->
  exists agent,
    resolved agent_id session_id w' = Ok agent
    /\ messages w' = (messages w ++ [um; am])%list
    /\ Message.session_id um = session_id /\ Message.session_id am = session_id
    /\ Message.created_at um = now du /\ Message.created_at am = now da.
Proof.
  rewrite send_message_lookup.
  destruct (resolved agent_id session_id w) as [agent|e] eqn:Hr; [|discriminate].
  rewrite send_message_body_run.
  destruct (existsb _ (messages w)); [discriminate|].
  destruct (chat_completions_create ai _) as [reply|]; [|discriminate].
  destruct (existsb _ (messages w ++ [_])); [discriminate|].
  intros H. inversion H; subst; clear H.
  exists agent. split; [|split].
  - rewrite <- Hr. now apply resolved_tables.
  - simpl. now rewrite <- app_assoc.
  - simpl. auto.
Qed.

(** X10: after a [send_message] that returns, [list_messages] on the same
    session returns the rows the session had before together with the two
    new rows, so two more than before; when these rows are in strictly
    increasing [created_at] in the order they were stored, the listing is
    the earlier rows followed by the user row and the assistant row. *)
Theorem send_then_list ai E agent_id session_id text du da w um am w' :
  lawful E ->
  send_message ai E agent_id session_id text du da w = (Ok (um, am), w') ->
  exists l,
    list_messages E agent_id session_id w' = (Ok l, w')
    /\ Permutation (session_rows session_id (messages w) ++ [um; am]) l
    /\ List.length l = List.length (session_rows session_id (messages w)) + 2
    /\ (StronglySorted created_at_lt (session_rows session_id (messages w) ++ [um; am]) ->
        l = (session_rows session_id (messages w) ++ [um; am])%list).
Proof.
  intros [Hperm Hsorted] Hrun.
  destruct (send_message_ok _ _ _ _ _ _ _ _ Hrun)
    as [agent [Hr [Hm [Hu [Ha _]]]]].
  assert (session_rows session_id (messages w')
          = (session_rows session_id (messages w) ++ [um; am])%list) as Hrows.
  { rewrite Hm, session_rows_app. simpl.
    now rewrite Hu, Ha, String.eqb_refl. }
  exists (history_of E session_id (messages w')).
  split; [now apply list_messages_run with agent|].
  unfold history_of. rewrite Hrows.
  split; [apply Hperm|].
  split.
  - rewrite <- (Permutation_length (Hperm _)), length_app. reflexivity.
  - intros Hlt. apply sorted_rearrangement_unique; auto.
Qed.

Lemma session_rows_other sid sid' (l added : list Message.t) :
  sid' <> sid ->
  Forall (fun m => Message.session_id m = sid) added ->
  session_rows sid' (l ++ added) = session_rows sid' l.
Proof.
  intros Hne Hall. rewrite session_rows_app.
  unfold session_rows at 2. rewrite filter_none; [apply app_nil_r|].
  intros m Hin. rewrite Forall_forall in Hall. rewrite (Hall m Hin).
  apply String.eqb_neq. congruence.
Qed.

(** X11: whatever their outcome, [send_message] and [voice_interaction] on
    one session leave the rows of every other session as they are, so the
    history of another session, as listed or as sent to the chat
    completion, is not affected. *)
Theorem other_sessions_untouched ai E agent_id session_id du da w other :
  other <> session_id ->
  (forall text,
     session_rows other
       (messages (snd (send_message ai E agent_id session_id text du da w)))
     = session_rows other (messages w))
  /\ (forall filename audio hex,
        session_rows other
          (messages (snd (voice_interaction ai E agent_id session_id filename audio
                            du da hex w)))
        = session_rows other (messages w)).
Proof.
  intros Hne.
  split.
  - intros text. rewrite send_message_lookup.
    destruct (resolved agent_id session_id w) as [agent|e]; [|reflexivity].
    rewrite send_message_body_run.
    destruct (existsb _ (messages w)); [reflexivity|].
    destruct (chat_completions_create ai _) as [reply|]; simpl.
    + destruct (existsb _ (messages w ++ [_])); simpl.
      * apply session_rows_other with (sid := session_id);
        [exact Hne|now repeat constructor].
      * rewrite <- app_assoc. apply session_rows_other with (sid := session_id);
        [exact Hne|now repeat constructor].
    + apply session_rows_other with (sid := session_id);
        [exact Hne|now repeat constructor].
  - intros filename audio hex. rewrite voice_interaction_lookup.
    destruct (resolved agent_id session_id w) as [agent|e]; [|reflexivity].
    pose proof (voice_interaction_body_run ai E agent session_id filename audio
                  du da hex w) as Hrun.
    cbv zeta in Hrun.
    destruct (audio_transcriptions_create ai filename audio) as [heard|];
      rewrite Hrun; clear Hrun; [|reflexivity].
    destruct (existsb _ (messages w)); [reflexivity|].
    destruct (chat_completions_create ai _) as [reply|]; simpl.
    2:{ apply session_rows_other with (sid := session_id);
        [exact Hne|now repeat constructor]. }
    destruct (existsb _ (messages w ++ [_])) eqn:Hv; simpl.
    { apply session_rows_other with (sid := session_id);
        [exact Hne|now repeat constructor]. }
    destruct (audio_speech_create ai reply) as [data|]; simpl.
    + pose proof (@replace_fresh_snoc
                    (messages w ++ [Message.make (new_id du) session_id "user" heard
                                                 None (now du)])
                    (Message.make (new_id da) session_id "assistant" reply None (now da))
                    (Message.with_audio_url (Some ("/api/audio/" ++ hex ++ ".mp3"))
                       (Message.make (new_id da) session_id "assistant" reply None
                                     (now da))) Hv) as Hmap.
      simpl in Hmap. rewrite Hmap, <- app_assoc.
      apply session_rows_other with (sid := session_id);
        [exact Hne|now repeat constructor].
    + rewrite <- app_assoc. apply session_rows_other with (sid := session_id);
        [exact Hne|now repeat constructor].
Qed.

(** ** The voice pipeline *)

(** X12: a [voice_interaction] that returns has called the provider three
    times, in this order and once each: the transcription of the upload,
    whose text is the content of the user row; the chat completion on the
    prompt built after that row was stored, whose text is the content of
    the assistant row; the speech synthesis on that same text. *)
Theorem voice_interaction_calls_in_order
    ai E agent_id session_id filename audio du da hex w um am w' :
  voice_interaction ai E agent_id session_id filename audio du da hex w
    = (Ok (um, am), w') ->
  exists agent audio_data,
    resolved agent_id session_id w = Ok agent
    /\ Message.role um = "user" /\ Message.role am = "assistant"
    /\ audio_transcriptions_create ai filename audio = Some (Message.content um)
    /\ chat_completions_create ai
         (full_messages_of E agent session_id (messages w ++ [um]))
       = Some (Message.content am)
    /\ audio_speech_create ai (Message.content am) = Some audio_data
    /\ calls w' =
       (calls w
        ++ [TranscriptionCall filename audio (Some (Message.content um));
            ChatCall (full_messages_of E agent session_id (messages w ++ [um]))
                     (Some (Message.content am));
            SpeechCall (Message.content am) (Some audio_data)])%list.
Proof.
  rewrite voice_interaction_lookup.
  destruct (resolved agent_id session_id w) as [agent|e]; [|discriminate].
  pose proof (voice_interaction_body_run ai E agent session_id filename audio
                du da hex w) as Hrun.
  cbv zeta in Hrun.
  destruct (audio_transcriptions_create ai filename audio) as [heard|];
    rewrite Hrun; clear Hrun; [|discriminate].
  destruct (existsb _ (messages w)); [discriminate|].
  destruct (chat_completions_create ai _) as [reply|] eqn:Hc; [|discriminate].
  destruct (existsb _ (messages w ++ [_])); [discriminate|].
  destruct (audio_speech_create ai reply) as [data|] eqn:Hd; [|discriminate].
  intros H. inversion H; subst; clear H. simpl.
  exists agent, data. repeat split; auto.
  now rewrite <- !app_assoc.
Qed.

(** X13: when the transcription fails, [voice_interaction] ends with that
    failure before anything is stored: the tables and the audio files are
    as before and the transcription is the only call made. *)
Theorem transcription_failure_stores_nothing
    ai E agent_id session_id filename audio du da hex w agent :
  resolved agent_id session_id w = Ok agent ->
  audio_transcriptions_create ai filename audio = None ->
  voice_interaction ai E agent_id session_id filename audio du da hex w
  = (Raise (UpstreamError Transcription),
     set_calls (calls w ++ [TranscriptionCall filename audio None]) w).
Proof.
  intros Hr Hnone.
  rewrite voice_interaction_lookup, Hr.
  pose proof (voice_interaction_body_run ai E agent session_id filename audio
                du da hex w) as Hrun.
  cbv zeta in Hrun. rewrite Hnone in Hrun. exact Hrun.
Qed.

(** X14: when the chat completion fails in [voice_interaction], the user
    row with the transcribed text stays stored, no assistant row is added,
    no speech is synthesised and no file is written. *)
Theorem voice_chat_failure_keeps_user_message
    ai E agent_id session_id filename audio du da hex w agent heard :
  let um := Message.make (new_id du) session_id "user" heard None (now du) in
  let prompt := full_messages_of E agent session_id (messages w ++ [um]) in
  resolved agent_id session_id w = Ok agent ->
  audio_transcriptions_create ai filename audio = Some heard ->
  ~ In (new_id du) (map Message.id (messages w)) ->
  chat_completions_create ai prompt = None ->
  voice_interaction ai E agent_id session_id filename audio du da hex w
  = (Raise (UpstreamError Chat),
     mkWorld (agents w) (sessions w) (messages w ++ [um]) (audio_files w)
             (calls w ++ [TranscriptionCall filename audio (Some heard);
                          ChatCall prompt None])).
Proof.
  intros um prompt Hr Hheard Hfresh Hnone.
  rewrite voice_interaction_lookup, Hr.
  pose proof (voice_interaction_body_run ai E agent session_id filename audio
                du da hex w) as Hrun.
  cbv zeta in Hrun. rewrite Hheard in Hrun. rewrite Hrun.
  rewrite (existsb_id_fresh _ _ Hfresh).
  fold um. fold prompt. rewrite Hnone.
  now rewrite <- app_assoc.
Qed.

(** ** Updating with an empty body, numbering, listing *)

(** X15: [update_agent] with a body that sets no field returns the stored
    row and changes nothing, [updated_at] included. *)
Theorem update_agent_empty_body agent_id t w agent :
  wf w ->
  get_agent agent_id w = (Ok agent, w) ->
  update_agent agent_id {| update_name := None; update_prompt := None |} t w
  = (Ok agent, w).
Proof.
  intros [Hnd _] Hget.
  destruct (@get_agent_ok_id agent_id w agent Hget) as [Hin Hid].
  apply get_agent_inv in Hget. destruct Hget as [_ Hrows].
  unfold update_agent, select_agent, commit_agent. unfold_monad.
  rewrite Hrows. simpl. rewrite !String.eqb_refl. simpl.
  destruct (in_split _ _ Hin) as [pre [post Hsplit]].
  assert (Agent.make (Agent.id agent) (Agent.name agent) (Agent.prompt agent)
                     (Agent.created_at agent) (Agent.updated_at agent) = agent) as ->
    by now destruct agent.
  rewrite Hsplit in Hnd. pose proof (replace_by_key pre post agent agent Hnd) as Hmap.
  rewrite <- Hsplit in Hmap. rewrite Hmap.
  now destruct w.
Qed.

Lemma create_session_ok agent_id payload t d w s w' :
  create_session agent_id payload t d w = (Ok s, w') ->
  ChatSession.agent_id s = agent_id
  /\ ChatSession.title s
     = (if falsy payload then Some (default_title (count_of agent_id w + 1) t)
        else payload)
  /\ sessions w' = (sessions w ++ [s])%list
  /\ agents w' = agents w.
Proof.
  unfold create_session, bind.
  destruct (get_agent agent_id w) as [[a|e] w1] eqn:Ha;
    apply get_agent_inv in Ha; destruct Ha as [-> _]; [|discriminate].
  unfold count_sessions, add_session, gets, ret, count_of.
  destruct (falsy payload); simpl;
    (destruct (existsb _ (sessions w)); [discriminate|]);
    intros H; inversion H; subst; simpl; auto.
Qed.

(** X16: a session that is created adds one to the number of sessions of
    its agent and leaves the number of every other agent as it is; two
    sessions created one after the other without title get consecutive
    numbers in their titles. *)
Theorem default_titles_are_numbered_in_sequence agent_id t1 d1 t2 d2 w s1 w1 s2 w2 :
  create_session agent_id None t1 d1 w = (Ok s1, w1) ->
  create_session agent_id None t2 d2 w1 = (Ok s2, w2) ->
  count_of agent_id w1 = count_of agent_id w + 1
  /\ (forall b, b <> agent_id -> count_of b w1 = count_of b w)
  /\ ChatSession.title s1 = Some (default_title (count_of agent_id w + 1) t1)
  /\ ChatSession.title s2 = Some (default_title (count_of agent_id w + 2) t2).
Proof.
  intros H1 H2.
  apply create_session_ok in H1. destruct H1 as [Ho1 [Ht1 [Hs1 _]]].
  apply create_session_ok in H2. destruct H2 as [_ [Ht2 _]].
  simpl in Ht1, Ht2.
  assert (count_of agent_id w1 = count_of agent_id w + 1) as Hc.
  { unfold count_of. rewrite Hs1, filter_app, length_app. simpl.
    unfold owned_by at 2. rewrite Ho1, String.eqb_refl. reflexivity. }
  repeat split; auto.
  - intros b Hb. unfold count_of. rewrite Hs1, filter_app, length_app. simpl.
    unfold owned_by at 2. rewrite Ho1.
    assert ((agent_id =? b) = false) as -> by (apply String.eqb_neq; congruence).
    simpl. lia.
  - rewrite Ht2, Hc. do 2 f_equal. lia.
Qed.

Section Newest.

Variables (A : Type) (key : A -> datetime).

Lemma insert_newest_perm x l : Permutation (x :: l) (insert_newest key x l).
Proof.
  induction l as [|y l IH]; simpl; [reflexivity|].
  destruct (key y <=? key x)%N; [reflexivity|].
  rewrite perm_swap. now apply perm_skip.
Qed.

Lemma sort_newest_first_perm l : Permutation l (sort_newest_first key l).
Proof.
  induction l as [|x l IH]; simpl; [constructor|].
  rewrite <- insert_newest_perm. now apply perm_skip.
Qed.

Lemma insert_newest_sorted x l :
  StronglySorted (newest_first key) l ->
  StronglySorted (newest_first key) (insert_newest key x l).
Proof.
  induction 1 as [|y l Hs IH Hy]; simpl.
  - repeat constructor.
  - destruct (key y <=? key x)%N eqn:Hb.
    + apply N.leb_le in Hb.
      constructor; [now constructor|].
      constructor; [exact Hb|].
      eapply Forall_impl; [|exact Hy].
      intros z Hz. unfold newest_first in *. lia.
    + apply N.leb_gt in Hb.
      constructor; [exact IH|].
      eapply Permutation_Forall; [apply insert_newest_perm|].
      constructor; [|exact Hy]. unfold newest_first. lia.
Qed.

Lemma sort_newest_first_sorted l :
  StronglySorted (newest_first key) (sort_newest_first key l).
Proof.
  induction l as [|x l IH]; simpl; [constructor|].
  now apply insert_newest_sorted.
Qed.

End Newest.

Lemma insertion_lists_lawful : lawful_lists insertion_lists.
Proof.
  repeat split; intros l; simpl;
    first [apply sort_newest_first_perm | apply sort_newest_first_sorted].
Qed.

(** X17: for an existing agent, [list_sessions] returns the sessions of
    that agent and no session of another agent, each once, newest first,
    and leaves the state as it is. *)
Theorem list_sessions_of_agent L agent_id w agent :
  lawful_lists L ->
  get_agent agent_id w = (Ok agent, w) ->
  exists l,
    list_sessions L agent_id w = (Ok l, w)
    /\ Permutation (filter (owned_by agent_id) (sessions w)) l
    /\ (forall s, In s l <-> In s (sessions w) /\ ChatSession.agent_id s = agent_id)
    /\ List.length l = count_of agent_id w
    /\ StronglySorted (newest_first ChatSession.created_at) l.
Proof.
  intros [_ [_ [Hperm Hsorted]]] Hget.
  exists (order_sessions_desc L (filter (owned_by agent_id) (sessions w))).
  split; [unfold list_sessions, bind; now rewrite Hget|].
  split; [apply Hperm|]. split; [|split; [|apply Hsorted]].
  - intros s. split.
    + intros Hin. apply (Permutation_in _ (Permutation_sym (Hperm _))) in Hin.
      apply filter_In in Hin. destruct Hin as [Hin Hown].
      split; [exact Hin|now apply String.eqb_eq].
    + intros [Hin Hown]. apply (Permutation_in _ (Hperm _)).
      apply filter_In. split; [exact Hin|]. now apply String.eqb_eq.
  - symmetry. apply Permutation_length, Hperm.
Qed.

(** X18: [list_agents] never raises and leaves the state as it is; after an
    agent has been created, the listing is the earlier listing with the new
    row added, newest first. *)
Theorem list_agents_after_create L payload d updated w a w' :
  lawful_lists L ->
  create_agent payload d updated w = (Ok a, w') ->
  exists l l',
    list_agents L w = (Ok l, w)
    /\ list_agents L w' = (Ok l', w')
    /\ Permutation (a :: l) l'
    /\ List.length l' = List.length (agents w) + 1
    /\ StronglySorted (newest_first Agent.created_at) l'.
Proof.
  intros [Hperm [Hsorted _]].
  unfold create_agent, add_agent.
  destruct (existsb _ (agents w)); [discriminate|].
  intros H. inversion H; subst; clear H.
  eexists. eexists. split; [reflexivity|]. split; [reflexivity|]. simpl.
  split; [|split; [|apply Hsorted]].
  - rewrite <- (Hperm (agents w ++ [_])%list), <- (Hperm (agents w)).
    apply Permutation_cons_append.
  - rewrite <- (Permutation_length (Hperm _)), length_app. reflexivity.
Qed.

(** ** The file name [generate_speech] returns *)

Lemma contains_char_append c (a b : string) :
  contains_char c (a ++ b) = contains_char c a || contains_char c b.
Proof.
  induction a as [|x a IH]; simpl; [reflexivity|].
  now rewrite IH, orb_assoc.
Qed.

Lemma last_piece_after c (dir name : string) :
  contains_char c name = false ->
  last_piece c (dir ++ String c name) = name.
Proof.
  intros Hname. induction dir as [|x dir IH]; simpl.
  - now rewrite Hname, Ascii.eqb_refl.
  - rewrite contains_char_append. simpl. rewrite Ascii.eqb_refl.
    rewrite orb_true_r. simpl. exact IH.
Qed.

Lemma last_piece_none c (s : string) :
  contains_char c s = false -> last_piece c s = s.
Proof.
  destruct s as [|x s]; simpl; [reflexivity|].
  intros H. apply orb_false_iff in H. destruct H as [Hx Hs].
  now rewrite Hs, Hx.
Qed.

(** X19: the value [generate_speech] returns is the part of the output
    path after its last ["/"]: for the path [audio_files/<hex>.mp3] the
    handler passes, with no ["/"] in [hex], it is [<hex>.mp3], the name the
    audio URL ends in; a path without ["/"] and without backslash is
    returned whole. *)
Theorem generate_speech_returns_file_name :
  (forall dir name,
     contains_char "/"%char name = false ->
     generate_speech_result (dir ++ "/" ++ name) = name)
  /\ (forall hex,
        contains_char "/"%char hex = false ->
        generate_speech_result ("audio_files/" ++ hex ++ ".mp3") = hex ++ ".mp3")
  /\ (forall path,
        contains_char "/"%char path = false ->
        contains_char backslash path = false ->
        generate_speech_result path = path).
Proof.
  assert (forall dir name,
            contains_char "/"%char name = false ->
            generate_speech_result (dir ++ "/" ++ name) = name) as Hmain.
  { intros dir name Hname. unfold generate_speech_result.
    rewrite contains_char_append. simpl. rewrite orb_true_r.
    now apply last_piece_after. }
  split; [exact Hmain|]. split.
  - intros hex Hhex. apply (Hmain "audio_files").
    rewrite contains_char_append, Hhex. reflexivity.
  - intros path Hs Hb. unfold generate_speech_result. rewrite Hs.
    now apply last_piece_none.
Qed.

(** ** The further properties on the scenario of the test suite *)

(** X1 on the state after one exchange. *)
Lemma reachable_keys_unique_witness :
  NoDup (map Message.id (messages w_chatted)).
Proof.
  exact (proj2 (proj2 (reachable_keys_unique w_chatted_reachable))).
Defined.

(** X3 on the state after one exchange. *)
Lemma reachable_roles_witness :
  Message.role am1 = "user" \/ Message.role am1 = "assistant".
Proof.
  apply (reachable_roles w_chatted_reachable am1).
  simpl. right. now left.
Defined.

(** X4 on the state with one session. *)
Lemma reachable_sessions_titled_witness :
  exists t,
    ChatSession.title (ChatSession.make "session-1" "agent-1" (Some "Test Session")
                                        2000000%N) = Some t
    /\ t <> "".
Proof.
  apply (reachable_sessions_titled w_session_reachable).
  simpl. now left.
Defined.

(** X5: [test_delete_session], after one exchange. *)
Lemma delete_session_cascades_witness :
  let w' := snd (delete_session "agent-1" "session-1" w_chatted) in
  sessions w' = [] /\ messages w' = []
  /\ delete_session "agent-1" "session-1" w'
     = (Raise (NotFound_session "session-1" "agent-1"), w').
Proof.
  cbv zeta.
  destruct (@delete_session_cascades "agent-1" "session-1" w_chatted _
              (reachable_wf w_chatted_reachable) eq_refl)
    as [_ [_ [Hs [Hm [_ [_ [_ [_ Hagain]]]]]]]].
  split; [exact Hs|]. split; [exact Hm|exact Hagain].
Defined.

(** X6: the session of [agent-1] is not deleted through the path of
    [agent-2]. *)
Lemma delete_session_misses_witness :
  delete_session "agent-2" "session-1" w_two_agents
  = (Raise (NotFound_session "session-1" "agent-2"), w_two_agents).
Proof.
  apply delete_session_misses.
  intros s [<-|[]] _. simpl. discriminate.
Defined.

(** X7: [test_get_agent], for a second agent. *)
Lemma create_agent_then_get_witness :
  get_agent "agent-2" w_two_agents
  = (Ok (Agent.make "agent-2" "Agent Two" "Prompt two" 2500000%N 2500000%N),
     w_two_agents).
Proof.
  refine (proj1 (proj2 (@create_agent_then_get
                          {| create_name := "Agent Two"; create_prompt := "Prompt two" |}
                          (defaults "agent-2" 2500000%N) 2500000%N w_session _))).
  simpl. intros [H|[]]. discriminate H.
Defined.

(** X8: [test_create_session_with_title] and [test_get_session]. *)
Lemma create_session_then_get_witness :
  get_session "agent-1" "session-1" w_session
  = (Ok (ChatSession.make "session-1" "agent-1" (Some "Test Session") 2000000%N),
     w_session).
Proof.
  refine (proj2 (@create_session_then_get "agent-1" "Test Session" 2000000%N
                   (defaults "session-1" 2000000%N) w_agent test_agent eq_refl _ _)).
  - discriminate.
  - simpl. intros [].
Defined.

(** X9: [test_get_agent_not_found] and its siblings. *)
Lemma unknown_agent_is_not_found_witness :
  let ghost := "00000000-0000-0000-0000-000000000000" in
  delete_agent ghost w_session = (Raise (NotFound_agent ghost), w_session).
Proof.
  cbv zeta.
  exact (proj1 (proj2 (proj2 (@unknown_agent_is_not_found
                                "00000000-0000-0000-0000-000000000000" w_session
                                eq_refl)))).
Defined.

(** X10: [test_send_message_stores_both_messages]. *)
Lemma send_then_list_witness :
  list_messages stable_engine "agent-1" "session-1" w_chatted = (Ok [um1; am1], w_chatted).
Proof.
  destruct (@send_then_list mock_ai stable_engine "agent-1" "session-1" "Hi there"
              d_user d_assistant w_session um1 am1 w_chatted
              stable_engine_lawful eq_refl) as [l [Hrun [_ [_ Hsame]]]].
  rewrite Hrun. f_equal. f_equal. apply Hsame.
  repeat constructor.
Defined.

(** X11: an exchange in [session-1] does not touch the rows of another
    session. *)
Lemma other_sessions_untouched_witness :
  session_rows "session-2" (messages w_chatted)
  = session_rows "session-2" (messages w_session).
Proof.
  refine (proj1 (@other_sessions_untouched mock_ai stable_engine "agent-1" "session-1"
                   d_user d_assistant w_session "session-2" _) "Hi there").
  discriminate.
Defined.

(** X12: [test_voice_interaction]. *)
Lemma voice_interaction_calls_in_order_witness :
  exists prompt,
    calls w_voice =
    [TranscriptionCall (Some "recording.webm") "audio" (Some "Hello voice");
     ChatCall prompt (Some "Hello! How can I help you?");
     SpeechCall "Hello! How can I help you?" (Some "mp3")].
Proof.
  destruct (@voice_interaction_calls_in_order mock_ai stable_engine "agent-1" "session-1"
              (Some "recording.webm") "audio" d_user d_assistant
              "0123456789abcdef0123456789abcdef" w_session
              (Message.make "message-1" "session-1" "user" "Hello voice" None 3000000%N)
              (Message.make "message-2" "session-1" "assistant"
                            "Hello! How can I help you?"
                            (Some "/api/audio/0123456789abcdef0123456789abcdef.mp3")
                            4000000%N)
              w_voice eq_refl)
    as [agent [data [_ [_ [_ [_ [_ [Hd Hcalls]]]]]]]].
  simpl in Hd. inversion Hd; subst.
  eexists. exact Hcalls.
Defined.

(** X13: the provider is down for transcriptions. *)
Lemma transcription_failure_stores_nothing_witness :
  voice_interaction transcription_down stable_engine "agent-1" "session-1"
    (Some "recording.webm") "audio" d_user d_assistant "ff" w_session
  = (Raise (UpstreamError Transcription),
     set_calls (calls w_session
                ++ [TranscriptionCall (Some "recording.webm") "audio" None]) w_session).
Proof.
  apply (@transcription_failure_stores_nothing transcription_down stable_engine
           "agent-1" "session-1" (Some "recording.webm") "audio" d_user d_assistant
           "ff" w_session test_agent); reflexivity.
Defined.

(** X14: the provider is down for chat completions. *)
Lemma voice_chat_failure_keeps_user_message_witness :
  messages (snd (voice_interaction chat_down stable_engine "agent-1" "session-1"
                   (Some "recording.webm") "audio" d_user d_assistant "ff" w_session))
  = [Message.make "message-1" "session-1" "user" "Hello voice" None 3000000%N].
Proof.
  rewrite (@voice_chat_failure_keeps_user_message chat_down stable_engine
             "agent-1" "session-1" (Some "recording.webm") "audio" d_user d_assistant
             "ff" w_session test_agent "Hello voice" eq_refl eq_refl
             (fun H : In "message-1" [] => H) eq_refl).
  reflexivity.
Defined.

(** X15: a [PUT] with the body [{}]. *)
Lemma update_agent_empty_body_witness :
  update_agent "agent-1" {| update_name := None; update_prompt := None |} 9000000%N
               w_session
  = (Ok test_agent, w_session).
Proof.
  exact (@update_agent_empty_body "agent-1" 9000000%N w_session test_agent
           (reachable_wf w_session_reachable) eq_refl).
Defined.

(** X16: two sessions created without title under a new agent. *)
Lemma default_titles_are_numbered_in_sequence_witness :
  let r1 := create_session "agent-1" None 2000000%N (defaults "session-1" 2000000%N)
                           w_agent in
  let r2 := create_session "agent-1" None 3000000%N (defaults "session-2" 3000000%N)
                           (snd r1) in
  exists s1 s2,
    fst r1 = Ok s1 /\ fst r2 = Ok s2
    /\ ChatSession.title s1 = Some "Chat 1 (12:00:02 AM)"
    /\ ChatSession.title s2 = Some "Chat 2 (12:00:03 AM)".
Proof.
  cbv zeta. eexists. eexists.
  split; [reflexivity|]. split; [reflexivity|].
  destruct (@default_titles_are_numbered_in_sequence "agent-1"
              2000000%N (defaults "session-1" 2000000%N)
              3000000%N (defaults "session-2" 3000000%N)
              w_agent _ _ _ _ eq_refl eq_refl) as [_ [_ [H1 H2]]].
  split; [exact H1|exact H2].
Defined.

(** X17: the listing of the sessions of [agent-1]. *)
Lemma list_sessions_of_agent_witness :
  exists l,
    list_sessions insertion_lists "agent-1" w_two_sessions = (Ok l, w_two_sessions)
    /\ List.length l = 2.
Proof.
  destruct (@list_sessions_of_agent insertion_lists "agent-1" w_two_sessions test_agent
              insertion_lists_lawful eq_refl) as [l [Hrun [_ [_ [Hlen _]]]]].
  exists l. split; [exact Hrun|exact Hlen].
Defined.

(** X18: [test_list_agents]. *)
Lemma list_agents_after_create_witness :
  exists l', list_agents insertion_lists w_two_agents = (Ok l', w_two_agents)
             /\ List.length l' = 2.
Proof.
  destruct (@list_agents_after_create insertion_lists
              {| create_name := "Agent Two"; create_prompt := "Prompt two" |}
              (defaults "agent-2" 2500000%N) 2500000%N w_session _ w_two_agents
              insertion_lists_lawful eq_refl) as [l [l' [_ [Hrun [_ [Hlen _]]]]]].
  exists l'. split; [exact Hrun|exact Hlen].
Defined.

(** X19 on the file name of the scenario. *)
Lemma generate_speech_returns_file_name_witness :
  generate_speech_result "audio_files/0123456789abcdef0123456789abcdef.mp3"
  = "0123456789abcdef0123456789abcdef.mp3".
Proof.
  exact (proj1 (proj2 generate_speech_returns_file_name)
           "0123456789abcdef0123456789abcdef" eq_refl).
Defined.
